(** * vectordb_bench: the ANN benchmark harness of bustub

    A shallow embedding of [tools/vectordb_bench/vectordb_bench.cpp]:
    the fvecs/ivecs readers, the vector literal printer, the ingestion
    and query loops and the recall metric, followed by the properties
    the harness is specified to have.

    Conventions.
    - A [size_t] is a [Z] in [0, 2^64); [++] on it wraps ([SizeT.incr]).
    - An [int] is a [Z] in [-2^31, 2^31).
    - A [float] is carried as its IEEE binary32 bit pattern, a [Z] in
      [0, 2^32); [Float32] gives the pattern its value.
    - A pointer into an array is the list of the elements readable from
      it onwards: [p + k] is [skipn k p] and [p[i]] is [nth_error p i],
      which is [None] past the end of the allocation.
    - [assert] is live (the build is a debug build): a failed assertion
      ends the run with [AssertionFailed]. *)

From Stdlib Require Import ZArith QArith Qabs Qpower List Bool Lia String Ascii.
From Stdlib.Strings Require Import Byte.
Import ListNotations.

Local Open Scope Z_scope.

(** ** Outcomes of a run *)

Inductive error : Type :=
| AssertionFailed (msg : string)   (* assert(cond || !"msg") *)
| Aborted (msg : string)           (* abort() after a diagnostic *)
| OutOfBounds                      (* a read outside the allocation *)
| Indeterminate                    (* use of a value never written *)
| Thrown (what : string).          (* an uncaught C++ exception *)

Inductive outcome (A : Type) : Type :=
| Returned (a : A)
| Raised (e : error).

Arguments Returned {A} a.
Arguments Raised {A} e.

Definition bind {A B : Type} (c : outcome A) (k : A -> outcome B) : outcome B :=
  match c with
  | Returned a => k a
  | Raised e => Raised e
  end.

Notation "x <- c ;; k" := (bind c (fun x => k))
  (at level 61, c at next level, right associativity).
Notation "' p <- c ;; k" := (bind c (fun x => let p := x in k))
  (at level 61, p pattern, c at next level, right associativity).

Definition assert (cond : bool) (msg : string) : outcome unit :=
  if cond then Returned tt else Raised (AssertionFailed msg).

(** [p[i]] for a pointer [p].  The program does not check its reads: one
    outside the allocation is undefined behaviour, after which the
    program may well go on.  The embedding stops there with
    [OutOfBounds]; it speaks for a run only where the run is shown to
    return, and [OutOfBounds] is never a way the program ends. *)
Definition load {A : Type} (p : list A) (i : Z) : outcome A :=
  if i <? 0 then Raised OutOfBounds
  else match nth_error p (Z.to_nat i) with
       | Some a => Returned a
       | None => Raised OutOfBounds
       end.

(** [p + k] for a pointer [p]. *)
Definition advance {A : Type} (p : list A) (k : Z) : list A :=
  skipn (Z.to_nat k) p.

(** ** Machine integers *)

Module SizeT.
Definition modulus : Z := 2 ^ 64.
Definition wrap (z : Z) : Z := z mod modulus.
(** [++x] *)
Definition incr (x : Z) : Z := wrap (x + 1).
End SizeT.

Module Int32.
Definition modulus : Z := 2 ^ 32.
Definition half : Z := 2 ^ 31.
(** The [int] whose two's complement representation is [bits]. *)
Definition of_bits (bits : Z) : Z :=
  let u := bits mod modulus in
  if u <? half then u else u - modulus.
Definition to_bits (i : Z) : Z := i mod modulus.
Definition in_range (i : Z) : Prop := - half <= i < half.
End Int32.

(** ** class Metric *)

Record Metric : Type := mkMetric {
  n_1_ : Z;
  n_10_ : Z;
  n_100_ : Z;
  n_ : Z
}.

(** [Metric() = default]: every counter is [{0}]. *)
Definition Metric_default : Metric := mkMetric 0 0 0 0.

Definition incr_n_1_ (m : Metric) : Metric :=
  mkMetric (SizeT.incr (n_1_ m)) (n_10_ m) (n_100_ m) (n_ m).
Definition incr_n_10_ (m : Metric) : Metric :=
  mkMetric (n_1_ m) (SizeT.incr (n_10_ m)) (n_100_ m) (n_ m).
Definition incr_n_100_ (m : Metric) : Metric :=
  mkMetric (n_1_ m) (n_10_ m) (SizeT.incr (n_100_ m)) (n_ m).
Definition incr_n_ (m : Metric) : Metric :=
  mkMetric (n_1_ m) (n_10_ m) (n_100_ m) (SizeT.incr (n_ m)).

(** The [for] loop of [AddQueryResult], entered at index [i] with the
    elements [res[i..]] still to visit.  [i] stays below [res.size()],
    so it never wraps. *)
Fixpoint AddQueryResult_loop (m : Metric) (target : Z) (res : list Z) (i : Z)
  : Metric :=
  match res with
  | [] => m
  | r :: rest =>
      if r =? target then
        let m := if i <? 1 then incr_n_1_ m else m in
        let m := if i <? 10 then incr_n_10_ m else m in
        let m := if i <? 100 then incr_n_100_ m else m in
        m                                   (* break *)
      else AddQueryResult_loop m target rest (i + 1)
  end.

Definition AddQueryResult (m : Metric) (res : list Z) (gt : list Z)
  : outcome Metric :=
  let m := incr_n_ m in
  target <- load gt 0 ;;
  Returned (AddQueryResult_loop m target res 0).

(** The counters after a hit at rank [i]. *)
Definition hit_at (m : Metric) (i : Z) : Metric :=
  mkMetric (if i <? 1 then SizeT.incr (n_1_ m) else n_1_ m)
           (if i <? 10 then SizeT.incr (n_10_ m) else n_10_ m)
           (if i <? 100 then SizeT.incr (n_100_ m) else n_100_ m)
           (n_ m).

(** The counters are ordered as the cutoffs are. *)
Definition counters_ordered (m : Metric) : Prop :=
  n_1_ m <= n_10_ m /\ n_10_ m <= n_100_ m /\ n_100_ m <= n_ m.

(** What [size_t / static_cast<float>(size_t)] evaluates to.  IEEE
    division does not trap: a zero divisor gives NaN for a zero dividend
    and infinity otherwise.  A quotient by a non-zero divisor is kept as
    the pair it is computed from. *)
Inductive float_quot : Type :=
| FNaN
| FInf
| FQuot (num den : Z).

Definition fdiv (a b : Z) : float_quot :=
  if b =? 0 then (if a =? 0 then FNaN else FInf) else FQuot a b.

(** The quotient is the float [0.0]. *)
Definition is_zero_quot (q : float_quot) : bool :=
  match q with
  | FQuot 0 _ => true
  | _ => false
  end.

(** [Show]: the three values handed to [printf], R@1, R@10 and R@100. *)
Definition Show (m : Metric) : outcome (float_quot * float_quot * float_quot) :=
  Returned (fdiv (n_1_ m) (n_ m), fdiv (n_10_ m) (n_ m), fdiv (n_100_ m) (n_ m)).

(** A report that is guarded against a zero [n_]: it either gives three
    zero recalls or fails. *)
Definition Show_guarded (m : Metric) : Prop :=
  (exists r1 r10 r100,
      Show m = Returned (r1, r10, r100) /\
      is_zero_quot r1 = true /\ is_zero_quot r10 = true /\ is_zero_quot r100 = true) \/
  (exists e, Show m = Raised e).

(** A whole sequence of [AddQueryResult] calls on one accumulator. *)
Fixpoint record_all (m : Metric) (calls : list (list Z * list Z))
  : outcome Metric :=
  match calls with
  | [] => Returned m
  | (res, gt) :: rest =>
      m' <- AddQueryResult m res gt ;;
      record_all m' rest
  end.

(** ** I/O functions for fvecs and ivecs *)

(** A file system: what [fopen] finds under a name. *)
Definition filesystem : Type := string -> option (list byte).

Definition byte_val (b : byte) : Z := Z.of_N (Byte.to_N b).

(** The 32-bit pattern stored, least significant byte first, in four
    consecutive bytes. *)
Definition le32 (b0 b1 b2 b3 : byte) : Z :=
  byte_val b0 + byte_val b1 * 2 ^ 8 + byte_val b2 * 2 ^ 16 + byte_val b3 * 2 ^ 24.

(** [fread(&d, 1, sizeof(int), f)] at the start of the file.  A file
    shorter than four bytes leaves [d] without a value; the program does
    not look at what [fread] returns and goes on with whatever [d] holds.
    The embedding stops there with [Indeterminate] and is the program on
    files of four bytes or more. *)
Definition fread_int (bytes : list byte) : outcome Z :=
  match bytes with
  | b0 :: b1 :: b2 :: b3 :: _ => Returned (Int32.of_bits (le32 b0 b1 b2 b3))
  | _ => Raised Indeterminate
  end.

(** [fread(x, sizeof(float), count, f)] from the start of the file: the
    whole elements it could read, at most [count] of them. *)
Fixpoint fread_floats (count : nat) (bytes : list byte) : list Z :=
  match count, bytes with
  | S k, b0 :: b1 :: b2 :: b3 :: rest => le32 b0 b1 b2 b3 :: fread_floats k rest
  | _, _ => []
  end.

(** [memmove(x + dst, x + src, len * sizeof( *x))]: the source range is
    read before anything is written, so the ranges may overlap. *)
Definition memmove {A : Type} (x : list A) (dst src len : nat) : list A :=
  firstn dst x ++ firstn len (skipn src x) ++ skipn (dst + len)%nat x.

(** The loop that shifts the array to remove the row headers, entered
    at row [i] with [todo] rows to go. *)
Fixpoint FvecsRead_shift {A : Type} (x : list A) (d : nat) (i : nat) (todo : nat)
  : list A :=
  match todo with
  | O => x
  | S k => FvecsRead_shift (memmove x (i * d)%nat (1 + i * (d + 1))%nat d) d (S i) k
  end.

(** [FvecsRead(fname, &d_out, &n_out)]: the result is [(d_out, n_out, x)].
    [sz] is the size [fstat] reports; every [size_t] product below is
    bounded by it, so none wraps. *)
Definition FvecsRead (fs : filesystem) (fname : string)
  : outcome (Z * Z * list Z) :=
  match fs fname with
  | None => Raised (Aborted ("could not open " ++ fname))
  | Some bytes =>
      d <- fread_int bytes ;;
      _ <- assert ((0 <? d) && (d <? 1000000)) "unreasonable dimension" ;;
      let sz := Z.of_nat (List.length bytes) in
      _ <- assert (sz mod ((d + 1) * 4) =? 0) "weird file size" ;;
      let n := sz / ((d + 1) * 4) in
      let x := fread_floats (Z.to_nat (n * (d + 1))) bytes in
      let nr := Z.of_nat (List.length x) in
      _ <- assert (nr =? n * (d + 1)) "could not read whole file" ;;
      Returned (d, n, FvecsRead_shift x (Z.to_nat d) 0 (Z.to_nat n))
  end.

(** [IvecsRead]: the same array, read through an [int *]. *)
Definition IvecsRead (fs : filesystem) (fname : string)
  : outcome (Z * Z * list Z) :=
  '(d, n, x) <- FvecsRead fs fname ;;
  Returned (d, n, map Int32.of_bits x).

(** The failures of [FvecsRead] that the specification calls
    [MalformedDatasetError]: its three assertions. *)
Definition MalformedDatasetError (e : error) : Prop :=
  e = AssertionFailed "unreasonable dimension" \/
  e = AssertionFailed "weird file size" \/
  e = AssertionFailed "could not read whole file".

(** *** The file format *)

Definition byte_of_Z (z : Z) : byte :=
  match Byte.of_N (Z.to_N (z mod 256)) with
  | Some b => b
  | None => x00
  end.

(** The four bytes of a 32-bit pattern, least significant first. *)
Definition le32_bytes (w : Z) : list byte :=
  [byte_of_Z w; byte_of_Z (w / 2 ^ 8); byte_of_Z (w / 2 ^ 16); byte_of_Z (w / 2 ^ 24)].

(** One record: the count prefix, then the payload. *)
Definition fvecs_record (d : Z) (payload : list Z) : list byte :=
  le32_bytes (Int32.to_bits d) ++ flat_map le32_bytes payload.

(** A file of records packed one after the other. *)
Definition fvecs_file (d : Z) (records : list (list Z)) : list byte :=
  flat_map (fvecs_record d) records.

(** The 32-bit elements of such a file, in file order: every record's
    count prefix followed by its payload. *)
Definition fvecs_words (d : Z) (records : list (list Z)) : list Z :=
  flat_map (fun r => Int32.to_bits d :: r) records.

Definition is_word (w : Z) : Prop := 0 <= w < 2 ^ 32.

(** [records] are [n] payloads of [d] 32-bit elements each, and [d] is
    a dimension the reader accepts. *)
Definition well_formed (d n : Z) (records : list (list Z)) : Prop :=
  0 < d < 1000000 /\
  Z.of_nat (List.length records) = n /\
  Forall (fun r => Z.of_nat (List.length r) = d /\ Forall is_word r) records.

(** Element [[i][j]] of a row-major array of rows of width [d]. *)
Definition at_ij {A : Type} (x : list A) (d : Z) (i j : Z) : option A :=
  nth_error x (Z.to_nat (i * d + j)).

(** Payload element [j] of record [i]. *)
Definition payload_ij {A : Type} (records : list (list A)) (i j : Z) : option A :=
  match nth_error records (Z.to_nat i) with
  | Some r => nth_error r (Z.to_nat j)
  | None => None
  end.

(** ** Floats and decimal text *)

Module Float32.
(** The three fields of a binary32 pattern. *)
Definition sign (bits : Z) : bool := Z.testbit bits 31.
Definition expo (bits : Z) : Z := Z.land (Z.shiftr bits 23) 255.
Definition frac (bits : Z) : Z := Z.land bits (2 ^ 23 - 1).

Definition is_finite (bits : Z) : bool := negb (expo bits =? 255).

(** A finite float has magnitude [mant * 2 ^ ex]. *)
Definition mant (bits : Z) : Z :=
  if expo bits =? 0 then frac bits else frac bits + 2 ^ 23.
Definition ex (bits : Z) : Z :=
  if expo bits =? 0 then -149 else expo bits - 150.

Definition magnitude (bits : Z) : Q :=
  (inject_Z (mant bits) * 2 ^ ex bits)%Q.
Definition value (bits : Z) : Q :=
  if sign bits then (- magnitude bits)%Q else magnitude bits.
End Float32.

(** The character of a decimal digit. *)
Definition digit_char (k : Z) : ascii := ascii_of_N (Z.to_N (48 + k)).

(** The decimal digits of [n], least significant first; [fuel] bounds
    their number. *)
Fixpoint digits_le (fuel : nat) (n : Z) : list Z :=
  match fuel with
  | O => []
  | S k => n mod 10 :: (if n <? 10 then [] else digits_le k (n / 10))
  end.

(** [n] in decimal, without leading zeros. *)
Definition decimal (n : Z) : string :=
  string_of_list_ascii
    (map digit_char (rev (digits_le (S (Z.to_nat (Z.log2 n))) n))).

(** [std::to_string] of a [size_t]. *)
Definition to_string (i : Z) : string := decimal i.

(** [f], below [10 ^ 6], as six digits. *)
Definition digits6 (f : Z) : string :=
  string_of_list_ascii
    (map digit_char
       [f / 100000 mod 10; f / 10000 mod 10; f / 1000 mod 10;
        f / 100 mod 10; f / 10 mod 10; f mod 10]).

(** [num / den] rounded to the nearest integer, ties to even. *)
Definition round_half_even (num den : Z) : Z :=
  let q := num / den in
  let r := num mod den in
  if (den <? 2 * r) || ((den =? 2 * r) && Z.odd q) then q + 1 else q.

(** The magnitude of a finite float in units of [10 ^ -6], rounded as
    [printf] rounds: exactly, to nearest, ties to even. *)
Definition scaled6 (bits : Z) : Z :=
  let num := Float32.mant bits * 10 ^ 6 in
  let e := Float32.ex bits in
  if 0 <=? e then num * 2 ^ e else round_half_even num (2 ^ (- e)).

(** [ss << std::fixed << std::setprecision(6) << x] for a [float x]:
    the text appended to the stream.  The stream widens [x] to [double]
    (exactly) and formats it as [printf] does under ["%.6f"] in the "C"
    locale: sign, integer digits, a point and six decimals of the exact
    value rounded to nearest; an infinity prints as [inf] and a NaN as
    [nan]. *)
Definition fixed6 (bits : Z) : string :=
  let minus := if Float32.sign bits then "-"%string else ""%string in
  if Float32.is_finite bits then
    let s := scaled6 bits in
    (minus ++ decimal (s / 10 ^ 6) ++ "." ++ digits6 (s mod 10 ^ 6))%string
  else if Float32.frac bits =? 0 then (minus ++ "inf")%string
  else (minus ++ "nan")%string.

(** ** Vector2String *)

(** The [for] loop, entered at index [i] with [todo] rounds to go and
    [ss] already in the stream. *)
Fixpoint Vector2String_loop (p : list Z) (n : Z) (i : Z) (todo : nat) (ss : string)
  : outcome string :=
  match todo with
  | O => Returned ss
  | S k =>
      x <- load p i ;;
      let ss := (ss ++ fixed6 x)%string in
      let ss := if i <? n - 1 then (ss ++ ", ")%string else ss in
      Vector2String_loop p n (i + 1) k ss
  end.

Definition Vector2String (p : list Z) (n : Z) : outcome string :=
  let ss := "["%string in
  ss <- Vector2String_loop p n 0 (Z.to_nat n) ss ;;
  Returned (ss ++ "]")%string.

(** ** std::stoi *)

Definition digit_of_ascii (c : ascii) : option Z :=
  let k := Z.of_N (N_of_ascii c) in
  if (48 <=? k) && (k <=? 57) then Some (k - 48) else None.

Definition is_space (c : ascii) : bool :=
  let k := Z.of_N (N_of_ascii c) in
  (k =? 32) || ((9 <=? k) && (k <=? 13)).

Fixpoint skip_spaces (s : string) : string :=
  match s with
  | String c r => if is_space c then skip_spaces r else s
  | EmptyString => s
  end.

Fixpoint take_digits (s : string) : list Z :=
  match s with
  | String c r =>
      match digit_of_ascii c with
      | Some k => k :: take_digits r
      | None => []
      end
  | EmptyString => []
  end.

(** The number a sequence of digits, most significant first, denotes. *)
Definition digits_value (ds : list Z) : Z :=
  fold_left (fun a k => 10 * a + k) ds 0.

Definition stoi (s : string) : outcome Z :=
  let s := skip_spaces s in
  let '(neg, s) := match s with
                   | String "-" r => (true, r)
                   | String "+" r => (false, r)
                   | _ => (false, s)
                   end in
  match take_digits s with
  | [] => Raised (Thrown "std::invalid_argument")
  | ds =>
      let v := if neg : bool then - digits_value ds else digits_value ds in
      if (- Int32.half <=? v) && (v <? Int32.half) then Returned v
      else Raised (Thrown "std::out_of_range")
  end.

(** ** The harness *)

(** The two result writers [main] hands to [ExecuteSql]. *)
Inductive writer_kind : Type :=
| NoopWriter
| StringVectorWriter.

Section Harness.

(** The database instance together with its writers is a collaborator
    reached through [ExecuteSql] only: [world] is its state,
    [ExecuteSql sql writer w] the status of one statement and the state
    after it, and [values_ w] the rows held by the string-vector writer.
    The progress lines on standard output carry wall-clock times and
    are left out. *)
Variable world : Type.
Variable ExecuteSql : string -> writer_kind -> world -> bool * world.
Variable values_ : world -> list (list string).

Record state : Type := mkState {
  bustub : world;
  cerr : string;              (* what was written to std::cerr *)
  executed : list string      (* the statements submitted, in order *)
}.

(** [bustub.ExecuteSql(sql, writer)] *)
Definition run_sql (sql : string) (writer : writer_kind) (st : state)
  : bool * state :=
  let '(status, w) := ExecuteSql sql writer (bustub st) in
  (status, mkState w (cerr st) (executed st ++ [sql])).

Definition create_index : string :=
  "CREATE INDEX t1v1hnsw ON t1 USING hnsw (v1 vector_l2_ops) WITH (m = 16, ef_construction = 64, ef_search = 100);".

Definition insert_sql : string := "INSERT INTO t1 VALUES (ARRAY ".

(** [std::cerr << "Insert data failed: index = " << i << std::endl] *)
Definition insert_failed (i : Z) : string :=
  ("Insert data failed: index = " ++ to_string i ++ String "010" "")%string.

(** The insertion loop, entered at row [i] with [todo] rows to go.
    [d2] is a [size_t] and is narrowed to the [int] parameter of
    [Vector2String]. *)
Fixpoint InsertIndexVectorData_loop (xb : list Z) (d2 : Z) (i : Z) (todo : nat)
  (st : state) : outcome state :=
  match todo with
  | O => Returned st
  | S k =>
      vector <- Vector2String (advance xb (i * d2)) (Int32.of_bits d2) ;;
      let sql := (insert_sql ++ vector ++ " , " ++ to_string i ++ ");")%string in
      let '(status, st) := run_sql sql NoopWriter st in
      let st := if status then st
                else mkState (bustub st) (cerr st ++ insert_failed i) (executed st) in
      InsertIndexVectorData_loop xb d2 (i + 1) k st
  end.

Definition InsertIndexVectorData (fs : filesystem) (st : state) : outcome state :=
  let '(status, st) := run_sql create_index NoopWriter st in
  _ <- assert status "Failed to create vector index." ;;
  '(d2, nb, xb) <- FvecsRead fs "sift1M/sift_base.fvecs" ;;
  _ <- assert (d2 =? 128) "vector dimension should be 128." ;;
  InsertIndexVectorData_loop xb d2 0 (Z.to_nat nb) st.

Definition select_sql : string := "SELECT v2, v1 FROM t1 ORDER BY ARRAY ".

(** [id_lst]: [std::stoi(lines[0])] for every row of the writer. *)
Fixpoint id_lst_of (res : list (list string)) : outcome (list Z) :=
  match res with
  | [] => Returned []
  | lines :: rest =>
      cell <- load lines 0 ;;
      id <- stoi cell ;;
      ids <- id_lst_of rest ;;
      Returned (id :: ids)
  end.

(** The ground-truth pointer query [i] is scored against: [gt + 100 * i]. *)
Definition DoANNQuery_gt_row (gt : list Z) (i : Z) : list Z :=
  advance gt (100 * i).

(** The query loop, entered at query [i] with [todo] queries to go. *)
Fixpoint DoANNQuery_loop (p : list Z) (gt : list Z) (i : Z) (todo : nat)
  (st : state) (metric : Metric) : outcome (state * Metric) :=
  match todo with
  | O => Returned (st, metric)
  | S k =>
      vector <- Vector2String (advance p (128 * i)) 128 ;;
      let sql := (select_sql ++ vector ++ " <-> v1 LIMIT 100;")%string in
      let '(_, st) := run_sql sql StringVectorWriter st in
      let res := values_ (bustub st) in
      id_lst <- id_lst_of res ;;
      metric <- AddQueryResult metric id_lst (DoANNQuery_gt_row gt i) ;;
      DoANNQuery_loop p gt (i + 1) k st metric
  end.

Definition DoANNQuery (st : state) (p : list Z) (nq : Z) (gt : list Z)
  : outcome (state * Metric * (float_quot * float_quot * float_quot)) :=
  let metric := Metric_default in
  '(st, metric) <- DoANNQuery_loop p gt 0 (Z.to_nat nq) st metric ;;
  recalls <- Show metric ;;
  Returned (st, metric, recalls).

(** [gt[i] = gt_int[i]] for [i] from [i] on, [todo] times. *)
Fixpoint copy_ints (gt_int : list Z) (i : Z) (todo : nat) : outcome (list Z) :=
  match todo with
  | O => Returned []
  | S k =>
      v <- load gt_int i ;;
      rest <- copy_ints gt_int (i + 1) k ;;
      Returned (v :: rest)
  end.

Definition create_table_sql : string :=
  "CREATE TABLE t1(v1 VECTOR(128), v2 integer);".

Definition main (fs : filesystem) (w : world)
  : outcome (state * Metric * (float_quot * float_quot * float_quot)) :=
  let st := mkState w "" [] in
  let '(status, st) := run_sql create_table_sql NoopWriter st in
  _ <- assert status "Failed to create table." ;;
  st <- InsertIndexVectorData fs st ;;
  '(d2, nq, xq) <- FvecsRead fs "sift1M/sift_query.fvecs" ;;
  _ <- assert (d2 =? 128) "query vector dimension should be 128" ;;
  '(k, nq2, gt_int) <- IvecsRead fs "sift1M/sift_groundtruth.ivecs" ;;
  _ <- assert (nq2 =? nq) "incorrect nb of ground truth entries" ;;
  gt <- copy_ints gt_int 0 (Z.to_nat (k * nq)) ;;
  DoANNQuery st xq nq gt.

End Harness.

Arguments mkState {world} _ _ _.
Arguments bustub {world} _.
Arguments cerr {world} _.
Arguments executed {world} _.

(** ** What the loops are specified to produce *)

(** The literal of a vector: its elements in fixed notation, separated
    by a comma and a space, between brackets. *)
Definition literal (v : list Z) : string :=
  ("[" ++ String.concat ", " (map fixed6 v) ++ "]")%string.

(** The insert statement for the row [v] under the identifier [i]. *)
Definition insert_statement (v : list Z) (i : Z) : string :=
  (insert_sql ++ literal v ++ " , " ++ to_string i ++ ");")%string.

(** One insert statement per row, the identifiers counting up from [i]. *)
Fixpoint insert_statements (i : Z) (rows : list (list Z)) : list string :=
  match rows with
  | [] => []
  | r :: rest => insert_statement r i :: insert_statements (i + 1) rest
  end.

(** Row [i] of a ground-truth matrix of row width [k]: the [k]
    identifiers from the flat offset [i * k] on. *)
Definition GroundTruth_row (gt : list Z) (k i : Z) : list Z :=
  firstn (Z.to_nat k) (advance gt (i * k)).

(** Every character of [s] passes the test [P]. *)
Fixpoint all_chars (P : ascii -> bool) (s : string) : bool :=
  match s with
  | EmptyString => true
  | String c r => P c && all_chars P r
  end.

Definition is_digit (c : ascii) : bool :=
  match digit_of_ascii c with
  | Some _ => true
  | None => false
  end.



(** One diagnostic line per failed row, with the row's index: what the
    rows from identifier [i] on leave on [std::cerr] when their statements
    get the [statuses]. *)
Fixpoint failure_log (i : Z) (statuses : list bool) : string :=
  match statuses with
  | [] => ""
  | ok :: rest =>
      ((if ok : bool then "" else insert_failed i) ++ failure_log (i + 1) rest)%string
  end.

Section IngestTrace.

Variable world : Type.
Variable ExecuteSql : string -> writer_kind -> world -> bool * world.

(** The status the backend gives each row's statement in turn,
    starting in state [w] with identifier [i]. *)
Fixpoint insert_statuses (i : Z) (rows : list (list Z)) (w : world) : list bool :=
  match rows with
  | [] => []
  | r :: rest =>
      let '(status, w') := ExecuteSql (insert_statement r i) NoopWriter w in
      status :: insert_statuses (i + 1) rest w'
  end.

End IngestTrace.

(** ** Backends to run the harness against *)


(** A backend that counts the statements it is given and rejects the
    one it is given as number [k]. *)
Definition reject_nth (k : nat) (sql : string) (writer : writer_kind) (w : nat)
  : bool * nat := (negb (Nat.eqb w k), S w).

(** A run whose ground truth has rows of width 60: one base vector, two
    queries, and the ground-truth rows [0 .. 59] and [60 .. 119]. *)
Definition k60_ground_truth : list (list Z) :=
  [map Z.of_nat (seq 0 60); map Z.of_nat (seq 60 60)].

Definition k60_fs : filesystem :=
  fun fname =>
    if (fname =? "sift1M/sift_base.fvecs")%string
    then Some (fvecs_file 128 [repeat 0 128])
    else if (fname =? "sift1M/sift_query.fvecs")%string
    then Some (fvecs_file 128 [repeat 0 128; repeat 1065353216 128])
    else if (fname =? "sift1M/sift_groundtruth.ivecs")%string
    then Some (fvecs_file 60 k60_ground_truth)
    else None.

(** A backend for that run which answers every query with its true
    nearest neighbour, the first entry of the query's ground-truth row:
    the state counts the queries answered. *)
Definition k60_ExecuteSql (sql : string) (writer : writer_kind) (w : nat)
  : bool * nat :=
  match writer with
  | NoopWriter => (true, w)
  | StringVectorWriter => (true, S w)
  end.

Definition k60_values_ (w : nat) : list (list string) :=
  [[to_string (60 * (Z.of_nat w - 1))]].

(** ** Reading a literal back

    The reader the round-trip property is stated with: a bracketed list
    of fixed-point numbers with six decimals, separated by a comma and a
    space, read as exact rationals. *)

(** The pieces of [s] between the occurrences of [sep]. *)
Fixpoint split_at (sep : ascii) (s : string) : list string :=
  match s with
  | EmptyString => [EmptyString]
  | String c r =>
      let pieces := split_at sep r in
      if Ascii.eqb c sep then EmptyString :: pieces
      else match pieces with
           | [] => [String c EmptyString]
           | p :: ps => String c p :: ps
           end
  end.

(** [s] without its last character, which has to be [c]. *)
Fixpoint drop_last (c : ascii) (s : string) : option string :=
  match s with
  | EmptyString => None
  | String x EmptyString => if Ascii.eqb x c then Some EmptyString else None
  | String x r =>
      match drop_last c r with
      | Some r' => Some (String x r')
      | None => None
      end
  end.

(** A non-empty run of digits, as a number. *)
Definition parse_digits (s : string) : option Z :=
  if (0 <? Z.of_nat (String.length s)) && all_chars is_digit s
  then Some (digits_value (take_digits s))
  else None.

(** digits.dddddd as the rational it denotes, negated when [neg]. *)
Definition parse_unsigned_fixed (neg : bool) (body : string) : option Q :=
  match split_at "." body with
  | [ip; fp] =>
      match parse_digits ip, parse_digits fp with
      | Some a, Some b =>
          if (String.length fp =? 6)%nat
          then Some (if neg then Qopp ((a * 10 ^ 6 + b) # 1000000)
                     else (a * 10 ^ 6 + b) # 1000000)
          else None
      | _, _ => None
      end
  | _ => None
  end.

(** [-]digits.dddddd as the rational it denotes. *)
Definition parse_fixed (s : string) : option Q :=
  match s with
  | String c r =>
      if Ascii.eqb c "-" then parse_unsigned_fixed true r
      else parse_unsigned_fixed false s
  | EmptyString => None
  end.

Fixpoint map_option {A B : Type} (f : A -> option B) (l : list A) : option (list B) :=
  match l with
  | [] => Some []
  | a :: r =>
      match f a, map_option f r with
      | Some b, Some bs => Some (b :: bs)
      | _, _ => None
      end
  end.

(** An element after the first: a space, then the number. *)
Definition parse_next (s : string) : option Q :=
  match s with
  | String c r => if Ascii.eqb c " " then parse_fixed r else None
  | EmptyString => None
  end.

Definition parse_literal (s : string) : option (list Q) :=
  match s with
  | String c body =>
      if Ascii.eqb c "[" then
        match drop_last "]" body with
        | Some EmptyString => Some []
        | Some inner =>
            match split_at "," inner with
            | first :: others =>
                match parse_fixed first, map_option parse_next others with
                | Some q, Some qs => Some (q :: qs)
                | _, _ => None
                end
            | [] => None
            end
        | None => None
        end
      else None
  | EmptyString => None
  end.

(** The shape of a fixed-point number with six decimals: an optional
    minus sign, at least one digit, a point, six digits. *)
Definition fixed_point6 (s : string) : Prop :=
  exists sgn ip fp : string,
    s = (sgn ++ ip ++ "." ++ fp)%string /\
    (sgn = ""%string \/ sgn = "-"%string) /\
    ip <> ""%string /\
    all_chars is_digit ip = true /\
    all_chars is_digit fp = true /\
    String.length fp = 6%nat.

(** The characters a fixed-point number is made of. *)
Definition fixed_char (c : ascii) : bool :=
  is_digit c || Ascii.eqb c "-" || Ascii.eqb c ".".

(** A finite float rounded to six decimals, the number its text denotes. *)
Definition rounded6 (bits : Z) : Q :=
  if Float32.sign bits then Qopp (scaled6 bits # 1000000)
  else scaled6 bits # 1000000.

Definition not_char (x : ascii) (c : ascii) : bool := negb (Ascii.eqb c x).

(** ** Vocabulary of the further properties *)

(** The call's target, the first entry of its ground-truth row, is
    among the first [K] results. *)
Definition in_top (K : nat) (call : list Z * list Z) : bool :=
  match snd call with
  | target :: _ => existsb (fun r => r =? target) (firstn K (fst call))
  | [] => false
  end.

(** The number of calls whose target is among the first [K] results. *)
Definition count_top (K : nat) (calls : list (list Z * list Z)) : Z :=
  Z.of_nat (List.length (filter (in_top K) calls)).

(** The 32-bit pattern held by the four bytes of a file from byte
    offset [4 * k] on. *)
Definition word_at (bytes : list byte) (k : nat) : option Z :=
  match skipn (4 * k) bytes with
  | b0 :: b1 :: b2 :: b3 :: _ => Some (le32 b0 b1 b2 b3)
  | _ => None
  end.

(** A file of records whose count prefixes are given one by one. *)
Definition fvecs_file_with_prefixes (rows : list (Z * list Z)) : list byte :=
  flat_map le32_bytes (flat_map (fun hr => fst hr :: snd hr) rows).

(** The backend [ExecuteSql] with every status replaced by [b]. *)
Definition with_status {world : Type} (b : bool)
  (ExecuteSql : string -> writer_kind -> world -> bool * world)
  : string -> writer_kind -> world -> bool * world :=
  fun sql writer w => (b, snd (ExecuteSql sql writer w)).

(** The select statement for the query vector [q]. *)
Definition select_statement (q : list Z) : string :=
  (select_sql ++ literal q ++ " <-> v1 LIMIT 100;")%string.

Section QueryTrace.

Variable world : Type.
Variable ExecuteSql : string -> writer_kind -> world -> bool * world.
Variable values_ : world -> list (list string).

(** The identifiers parsed from the rows the writer holds in state [w]. *)
Definition answer_ids (w : world) : list Z :=
  match id_lst_of (values_ w) with
  | Returned ids => ids
  | Raised _ => []
  end.

(** What each query hands to the metric, starting in state [w] with
    query [i]: the identifiers the backend answered with and the
    ground-truth pointer of the query. *)
Fixpoint query_calls (i : Z) (queries : list (list Z)) (gt : list Z) (w : world)
  : list (list Z * list Z) :=
  match queries with
  | [] => []
  | q :: rest =>
      let w' := snd (ExecuteSql (select_statement q) StringVectorWriter w) in
      (answer_ids w', DoANNQuery_gt_row gt i) :: query_calls (i + 1) rest gt w'
  end.

End QueryTrace.

(** A writer whose rows start with a number in every state: ["0"] in
    the even states and ["1"] in the odd ones. *)
Definition parity_values_ (w : nat) : list (list string) :=
  if Nat.even w then [["0"; "[0.000000]"]]%string else [["1"]]%string.

(** [well_formed], decided. *)
Definition well_formedb (d n : Z) (records : list (list Z)) : bool :=
  (0 <? d) && (d <? 1000000) &&
  (Z.of_nat (List.length records) =? n) &&
  forallb (fun r => (Z.of_nat (List.length r) =? d) &&
                    forallb (fun w => (0 <=? w) && (w <? 2 ^ 32)) r) records.

Section QueryWorlds.

Variable world : Type.
Variable ExecuteSql : string -> writer_kind -> world -> bool * world.

(** The states of the backend after each query's select statement,
    starting in state [w]. *)
Fixpoint query_worlds (queries : list (list Z)) (w : world) : list world :=
  match queries with
  | [] => []
  | q :: rest =>
      let w' := snd (ExecuteSql (select_statement q) StringVectorWriter w) in
      w' :: query_worlds rest w'
  end.

End QueryWorlds.

(** ** Proof steps *)

(** The powers of two the word sizes bring in, as numerals. *)
Ltac pow2 :=
  change (2 ^ 8) with 256 in *;
  change (2 ^ 16) with 65536 in *;
  change (2 ^ 24) with 16777216 in *;
  change (2 ^ 31) with 2147483648 in *;
  change (2 ^ 32) with 4294967296 in *.

(** * Properties *)

(** ** The recall metric *)

(** The ground truth is [42, 7, 3] and the answer [7, 42, 9]: a match
    at rank 1. *)
Example AddQueryResult_rank_1 :
  AddQueryResult Metric_default [7; 42; 9] [42; 7; 3]
  = Returned (mkMetric 0 1 1 1).
Proof. reflexivity. Qed.

(** A failed query has no answer: only [n_] moves. *)
Example AddQueryResult_no_answer :
  AddQueryResult Metric_default [] [42] = Returned (mkMetric 0 0 0 1).
Proof. reflexivity. Qed.

(** Only the first occurrence counts. *)
Example AddQueryResult_twice :
  AddQueryResult Metric_default [42; 42] [42] = Returned (mkMetric 1 1 1 1).
Proof. reflexivity. Qed.

Lemma load_0 (A : Type) (p : list A) :
  load p 0 = match p with
             | a :: _ => Returned a
             | [] => Raised OutOfBounds
             end.
Proof. destruct p; reflexivity. Qed.

(** The loop never touches [n_]. *)
Lemma AddQueryResult_loop_n_ (res : list Z) :
  forall m target i, n_ (AddQueryResult_loop m target res i) = n_ m.
Proof.
  induction res as [|r rest IH]; intros m target i; simpl.
  - reflexivity.
  - destruct (r =? target).
    + destruct (i <? 1), (i <? 10), (i <? 100); reflexivity.
    + apply IH.
Qed.

(** A list without the target leaves the accumulator as it is. *)
Lemma AddQueryResult_loop_miss (res : list Z) :
  forall m target i,
    ~ In target res -> AddQueryResult_loop m target res i = m.
Proof.
  induction res as [|r rest IH]; intros m target i Hnot; simpl.
  - reflexivity.
  - destruct (Z.eqb_spec r target) as [->|Hne].
    + exfalso. apply Hnot. now left.
    + apply IH. intros Hin. apply Hnot. now right.
Qed.

(** A first occurrence [k] places into the remaining list is a hit at
    rank [i + k], however the list goes on. *)
Lemma AddQueryResult_loop_hit (res : list Z) :
  forall m target i k,
    nth_error res k = Some target ->
    (forall j, (j < k)%nat -> nth_error res j <> Some target) ->
    AddQueryResult_loop m target res i = hit_at m (i + Z.of_nat k).
Proof.
  induction res as [|r rest IH]; intros m target i k Hk Hfirst.
  - destruct k; discriminate.
  - simpl. destruct k as [|k].
    + simpl in Hk. injection Hk as ->. rewrite Z.eqb_refl, Z.add_0_r.
      unfold hit_at. destruct m as [a b c n]. simpl.
      destruct (i <? 1), (i <? 10), (i <? 100); reflexivity.
    + destruct (Z.eqb_spec r target) as [->|Hne].
      * exfalso. apply (Hfirst 0%nat); [lia | reflexivity].
      * rewrite (IH m target (i + 1) k).
        -- f_equal. lia.
        -- exact Hk.
        -- intros j Hj. apply (Hfirst (S j)). lia.
Qed.

(** C1. One call to [AddQueryResult] with a result list [res] and a
    ground-truth row whose first entry is [target]: [n_] is incremented
    once whatever happens; if the first occurrence of [target] in [res]
    is at 0-based rank [i], then [n_1_] is incremented exactly when
    [i < 1], [n_10_] when [i < 10] and [n_100_] when [i < 100], and
    nothing after that first occurrence counts; if [target] does not
    occur in [res], no hit counter changes. *)
Theorem AddQueryResult_spec (m : Metric) (res gt : list Z) (target : Z) :
  nth_error gt 0 = Some target ->
  exists m',
    AddQueryResult m res gt = Returned m' /\
    n_ m' = SizeT.incr (n_ m) /\
    (forall i : nat,
        nth_error res i = Some target ->
        (forall j, (j < i)%nat -> nth_error res j <> Some target) ->
        n_1_ m' = (if Z.of_nat i <? 1 then SizeT.incr (n_1_ m) else n_1_ m) /\
        n_10_ m' = (if Z.of_nat i <? 10 then SizeT.incr (n_10_ m) else n_10_ m) /\
        n_100_ m' = (if Z.of_nat i <? 100 then SizeT.incr (n_100_ m) else n_100_ m)) /\
    (~ In target res ->
        n_1_ m' = n_1_ m /\ n_10_ m' = n_10_ m /\ n_100_ m' = n_100_ m).
Proof.
  intros Hgt. unfold AddQueryResult. rewrite load_0.
  destruct gt as [|g gt']; [discriminate|]. simpl in Hgt. injection Hgt as ->.
  simpl. eexists. split; [reflexivity|]. split; [|split].
  - now rewrite AddQueryResult_loop_n_.
  - intros i Hi Hfirst.
    rewrite (AddQueryResult_loop_hit res _ target 0 i Hi Hfirst). simpl.
    repeat split; reflexivity.
  - intros Hnot. rewrite AddQueryResult_loop_miss by exact Hnot.
    repeat split; reflexivity.
Qed.

Lemma AddQueryResult_spec_witness :
  exists m',
    AddQueryResult (mkMetric 3 4 5 9) [7; 42; 9; 42] [42; 7; 3] = Returned m' /\
    m' = mkMetric 3 5 6 10.
Proof.
  destruct (AddQueryResult_spec (mkMetric 3 4 5 9) [7; 42; 9; 42] [42; 7; 3] 42
              eq_refl) as (m' & Hrun & Hn & Hhit & _).
  exists m'. split; [exact Hrun|].
  destruct (Hhit 1%nat eq_refl) as (H1 & H10 & H100).
  - intros j Hj. assert (j = 0%nat) as -> by lia. discriminate.
  - destruct m' as [a b c n]. simpl in *. subst. reflexivity.
Defined.

(** Whatever the list, the loop either leaves the accumulator alone or
    scores one hit at some rank from [i] on. *)
Lemma AddQueryResult_loop_cases (res : list Z) :
  forall m target i,
    AddQueryResult_loop m target res i = m \/
    exists j, i <= j /\ AddQueryResult_loop m target res i = hit_at m j.
Proof.
  induction res as [|r rest IH]; intros m target i; simpl.
  - now left.
  - destruct (r =? target).
    + right. exists i. split; [lia|].
      unfold hit_at. destruct m as [a b c n]. simpl.
      destruct (i <? 1), (i <? 10), (i <? 100); reflexivity.
    + destruct (IH m target (i + 1)) as [H | (j & Hj & H)].
      * now left.
      * right. exists j. split; [lia | exact H].
Qed.

Lemma SizeT_incr_small (x : Z) :
  0 <= x -> x + 1 < SizeT.modulus -> SizeT.incr x = x + 1.
Proof.
  intros H0 H1. unfold SizeT.incr, SizeT.wrap. apply Z.mod_small. lia.
Qed.

(** The invariant behind the ordering: no counter has wrapped yet, and
    [n_] is the number [c] of calls made. *)
Lemma AddQueryResult_invariant (m m' : Metric) (res gt : list Z) (c : Z) :
  0 <= n_1_ m -> counters_ordered m -> n_ m = c -> c + 1 < SizeT.modulus ->
  AddQueryResult m res gt = Returned m' ->
  0 <= n_1_ m' /\ counters_ordered m' /\ n_ m' = c + 1.
Proof.
  intros H0 (H1 & H2 & H3) Hn Hc Hrun.
  unfold AddQueryResult in Hrun. rewrite load_0 in Hrun.
  destruct gt as [|target gt']; [discriminate|]. simpl in Hrun.
  injection Hrun as <-.
  assert (Hi : SizeT.incr (n_ m) = c + 1)
    by (rewrite Hn; apply SizeT_incr_small; lia).
  destruct (AddQueryResult_loop_cases res (incr_n_ m) target 0)
    as [-> | (j & Hj & ->)]; unfold counters_ordered; simpl; rewrite Hi.
  - lia.
  - rewrite !SizeT_incr_small by lia.
    destruct (Z.ltb_spec j 1), (Z.ltb_spec j 10), (Z.ltb_spec j 100); lia.
Qed.

Lemma record_all_invariant (calls : list (list Z * list Z)) :
  forall m c,
    0 <= n_1_ m -> counters_ordered m -> n_ m = c ->
    c + Z.of_nat (List.length calls) < SizeT.modulus ->
    Forall (fun call => snd call <> []) calls ->
    exists m', record_all m calls = Returned m' /\
               0 <= n_1_ m' /\ counters_ordered m' /\
               n_ m' = c + Z.of_nat (List.length calls).
Proof.
  induction calls as [|[res gt] rest IH]; intros m c H0 Hord Hn Hc Hgt.
  - exists m. simpl. rewrite Z.add_0_r. auto.
  - inversion Hgt as [|? ? Hne Hrest]; subst. simpl in Hne.
    destruct gt as [|target gt']; [congruence|].
    cbn [record_all].
    destruct (AddQueryResult m res (target :: gt')) as [m1|e] eqn:Hcall.
    2:{ unfold AddQueryResult in Hcall. rewrite load_0 in Hcall. discriminate. }
    cbn [bind].
    destruct (AddQueryResult_invariant m m1 res (target :: gt') (n_ m))
      as (H0' & Hord' & Hn'); auto.
    { cbn [List.length] in Hc. lia. }
    destruct (IH m1 (n_ m + 1)) as (m' & Hrun & Hm'); auto.
    { cbn [List.length] in Hc. lia. }
    exists m'. split; [exact Hrun|].
    cbn [List.length]. rewrite Nat2Z.inj_succ.
    replace (n_ m + Z.succ (Z.of_nat (List.length rest)))
      with (n_ m + 1 + Z.of_nat (List.length rest)) by lia.
    exact Hm'.
Qed.

(** C6. After any sequence of [AddQueryResult] calls on a fresh
    accumulator (every call with a ground-truth row that has a first
    entry, and fewer than [2^64] calls, so that no [size_t] has wrapped),
    the run returns and [n_1_ <= n_10_ <= n_100_ <= n_]. *)
Theorem Metric_counters_ordered (calls : list (list Z * list Z)) :
  Forall (fun call => snd call <> []) calls ->
  Z.of_nat (List.length calls) < SizeT.modulus ->
  exists m,
    record_all Metric_default calls = Returned m /\
    n_1_ m <= n_10_ m /\ n_10_ m <= n_100_ m /\ n_100_ m <= n_ m.
Proof.
  intros Hgt Hlen.
  destruct (record_all_invariant calls Metric_default 0) as (m & Hrun & _ & Hord & _).
  - simpl. lia.
  - unfold counters_ordered. simpl. lia.
  - reflexivity.
  - lia.
  - exact Hgt.
  - exists m. split; [exact Hrun | exact Hord].
Qed.

Lemma Metric_counters_ordered_witness :
  exists m,
    record_all Metric_default
      [([7; 42; 9], [42; 7; 3]); ([], [42]); ([5], [5; 6])] = Returned m /\
    n_1_ m <= n_10_ m /\ n_10_ m <= n_100_ m /\ n_100_ m <= n_ m.
Proof.
  apply (Metric_counters_ordered
           [([7; 42; 9], [42; 7; 3]); ([], [42]); ([5], [5; 6])]).
  - repeat constructor; discriminate.
  - reflexivity.
Defined.

(** C4, as the specification states it, fails on a fresh accumulator:
    [Show] neither reports zero recalls nor fails. *)
Lemma Show_unguarded :
  n_ Metric_default = 0 /\
  Show Metric_default = Returned (FNaN, FNaN, FNaN) /\
  ~ Show_guarded Metric_default.
Proof.
  split; [reflexivity|]. split; [reflexivity|].
  intros [(r1 & r10 & r100 & Hshow & Hz & _) | (e & Hshow)].
  - cbv in Hshow. injection Hshow as <- <- <-. discriminate.
  - discriminate.
Qed.

(** C4, amended.  [Show] has no guard and no failure path: whenever
    [n_] is zero it returns, for each cutoff, the result of dividing the
    hit counter by zero, which is NaN for a zero counter and infinity
    otherwise, and never the recall zero. *)
Theorem Show_zero_queries (m : Metric) :
  n_ m = 0 ->
  exists r1 r10 r100,
    Show m = Returned (r1, r10, r100) /\
    r1 = (if n_1_ m =? 0 then FNaN else FInf) /\
    r10 = (if n_10_ m =? 0 then FNaN else FInf) /\
    r100 = (if n_100_ m =? 0 then FNaN else FInf) /\
    is_zero_quot r1 = false /\ is_zero_quot r10 = false /\
    is_zero_quot r100 = false.
Proof.
  intros Hn. unfold Show, fdiv. rewrite Hn. simpl.
  do 3 eexists. split; [reflexivity|].
  repeat split;
    try (destruct (n_1_ m =? 0); reflexivity);
    try (destruct (n_10_ m =? 0); reflexivity);
    try (destruct (n_100_ m =? 0); reflexivity).
Qed.

Lemma Show_zero_queries_witness :
  exists r1 r10 r100,
    Show (mkMetric 0 0 0 0) = Returned (r1, r10, r100) /\
    r1 = FNaN /\ r10 = FNaN /\ r100 = FNaN.
Proof.
  destruct (Show_zero_queries (mkMetric 0 0 0 0) eq_refl)
    as (r1 & r10 & r100 & Hshow & H1 & H10 & H100 & _).
  exists r1, r10, r100. simpl in *. auto.
Defined.

(** ** Bytes and words *)

Lemma byte_val_range (b : byte) : 0 <= byte_val b < 256.
Proof.
  unfold byte_val. pose proof (Byte.to_N_bounded b). lia.
Qed.

Lemma byte_val_of_Z (z : Z) : byte_val (byte_of_Z z) = z mod 256.
Proof.
  unfold byte_of_Z, byte_val.
  assert (Hr : 0 <= z mod 256 < 256) by (apply Z.mod_pos_bound; lia).
  destruct (Byte.of_N (Z.to_N (z mod 256))) as [b|] eqn:E.
  - apply Byte.to_of_N in E. rewrite E. lia.
  - apply Byte.of_N_None_iff in E. lia.
Qed.

Lemma le32_range (b0 b1 b2 b3 : byte) : is_word (le32 b0 b1 b2 b3).
Proof.
  unfold is_word, le32.
  pose proof (byte_val_range b0). pose proof (byte_val_range b1).
  pose proof (byte_val_range b2). pose proof (byte_val_range b3).
  pow2. lia.
Qed.

(** Writing a word as four bytes and reading them back gives the word. *)
Lemma le32_le32_bytes (w : Z) :
  is_word w ->
  le32 (byte_of_Z w) (byte_of_Z (w / 2 ^ 8)) (byte_of_Z (w / 2 ^ 16))
       (byte_of_Z (w / 2 ^ 24)) = w.
Proof.
  unfold is_word, le32. intros Hw. rewrite !byte_val_of_Z.
  pow2.
  Z.to_euclidean_division_equations. lia.
Qed.

Lemma Int32_to_bits_word (i : Z) : is_word (Int32.to_bits i).
Proof.
  unfold is_word, Int32.to_bits, Int32.modulus. apply Z.mod_pos_bound. lia.
Qed.

Lemma Int32_of_to_bits (i : Z) :
  Int32.in_range i -> Int32.of_bits (Int32.to_bits i) = i.
Proof.
  unfold Int32.in_range, Int32.of_bits, Int32.to_bits, Int32.half, Int32.modulus.
  intros Hi. rewrite Z.mod_mod by lia.
  pow2.
  destruct (Z.ltb_spec (i mod 4294967296) 2147483648);
    Z.to_euclidean_division_equations; lia.
Qed.

(** Reading as many elements as were written gives them back. *)
Lemma fread_floats_le32_bytes (ws : list Z) :
  forall rest,
    Forall is_word ws ->
    fread_floats (List.length ws) (flat_map le32_bytes ws ++ rest) = ws.
Proof.
  induction ws as [|w ws IH]; intros rest Hws.
  - reflexivity.
  - inversion Hws as [|? ? Hw Hrest]; subst.
    cbn [flat_map List.length le32_bytes app fread_floats].
    rewrite le32_le32_bytes by exact Hw. f_equal. now apply IH.
Qed.

Lemma length_flat_map_le32_bytes (ws : list Z) :
  List.length (flat_map le32_bytes ws) = (4 * List.length ws)%nat.
Proof.
  induction ws as [|w ws IH]; cbn [flat_map List.length le32_bytes app]; lia.
Qed.

(** [fread] delivers every element asked for when the file is long
    enough. *)
Lemma length_fread_floats (count : nat) :
  forall bytes,
    (4 * count <= List.length bytes)%nat ->
    List.length (fread_floats count bytes) = count.
Proof.
  induction count as [|k IH]; intros bytes Hlen.
  - reflexivity.
  - destruct bytes as [|b0 [|b1 [|b2 [|b3 rest]]]]; cbn [List.length] in Hlen; try lia.
    cbn [fread_floats List.length]. f_equal. apply IH. lia.
Qed.

(** ** The row shift of FvecsRead *)

Lemma firstn_length_app (A : Type) (l l' : list A) :
  firstn (List.length l) (l ++ l') = l.
Proof.
  induction l as [|a l IH]; simpl.
  - now destruct l'.
  - now rewrite IH.
Qed.

Lemma skipn_length_app (A : Type) (l l' : list A) :
  skipn (List.length l) (l ++ l') = l'.
Proof.
  induction l as [|a l IH]; simpl; auto.
Qed.

(** One round: row [i], found behind [i] stale cells and its own header
    [h], is moved next to the rows already in place; the stale cells grow
    by one. *)
Lemma memmove_row (A : Type) (done junk r rest : list A) (h : A) (d i : nat) :
  List.length done = (i * d)%nat ->
  List.length junk = i ->
  List.length r = d ->
  exists junk',
    List.length junk' = S i /\
    memmove (done ++ junk ++ h :: r ++ rest) (i * d) (1 + i * (d + 1)) d
    = (done ++ r) ++ junk' ++ rest.
Proof.
  intros Hdone Hjunk Hr. exists (skipn d (junk ++ h :: r)). split.
  - rewrite length_skipn, length_app. cbn [List.length]. lia.
  - unfold memmove. rewrite <- app_assoc. f_equal; [|f_equal].
    + rewrite <- Hdone. apply firstn_length_app.
    + replace (done ++ junk ++ h :: r ++ rest)
        with ((done ++ junk ++ [h]) ++ r ++ rest)
        by (rewrite <- !app_assoc; reflexivity).
      replace (1 + i * (d + 1))%nat with (List.length (done ++ junk ++ [h]))
        by (rewrite !length_app; cbn [List.length]; lia).
      rewrite skipn_length_app. rewrite <- Hr. apply firstn_length_app.
    + rewrite <- Hdone, skipn_app, Nat.add_comm, Nat.add_sub.
      rewrite skipn_all2 by lia. cbn [app].
      replace (junk ++ h :: r ++ rest) with ((junk ++ h :: r) ++ rest)
        by (rewrite <- app_assoc; reflexivity).
      rewrite skipn_app.
      replace (d - List.length (junk ++ h :: r))%nat with 0%nat
        by (rewrite length_app; cbn [List.length]; lia).
      reflexivity.
Qed.

(** The whole loop: the payloads end up packed at the front, whatever
    the row headers were. *)
Lemma FvecsRead_shift_rows (A : Type) (d : nat) (rows : list (A * list A)) :
  forall done junk i,
    List.length done = (i * d)%nat ->
    List.length junk = i ->
    Forall (fun hr => List.length (snd hr) = d) rows ->
    exists junk',
      List.length junk' = (i + List.length rows)%nat /\
      FvecsRead_shift (done ++ junk ++ flat_map (fun hr => fst hr :: snd hr) rows)
        d i (List.length rows)
      = (done ++ List.concat (map snd rows)) ++ junk'.
Proof.
  induction rows as [|[h r] rows IH]; intros done junk i Hdone Hjunk Hrows.
  - exists junk. cbn. rewrite !app_nil_r. split; [lia | reflexivity].
  - pose proof (Forall_inv Hrows) as Hr. cbn [snd] in Hr.
    pose proof (Forall_inv_tail Hrows) as Hrest.
    cbn [flat_map fst snd List.length FvecsRead_shift map List.concat].
    destruct (memmove_row A done junk r
                (flat_map (fun hr => fst hr :: snd hr) rows) h
                d i Hdone Hjunk Hr) as (junk1 & Hj1 & Hmove).
    cbn [app]. rewrite Hmove.
    destruct (IH (done ++ r) junk1 (S i)) as (junk' & Hj' & Hrun).
    + rewrite length_app. lia.
    + exact Hj1.
    + exact Hrest.
    + exists junk'. split; [lia|].
      rewrite Hrun. now rewrite <- !app_assoc.
Qed.

(** Element [j] of row [i] of a packed array of rows of width [d]. *)
Lemma nth_error_concat_rows (A : Type) (d : nat) (rows : list (list A)) :
  forall (tail : list A) (i j : nat),
    Forall (fun r => List.length r = d) rows ->
    (j < d)%nat ->
    nth_error (List.concat rows ++ tail) (i * d + j)
    = match nth_error rows i with
      | Some r => nth_error r j
      | None => nth_error tail ((i - List.length rows) * d + j)
      end.
Proof.
  induction rows as [|r rows IH]; intros tail i j Hrows Hj.
  - cbn. destruct i; cbn; f_equal; lia.
  - pose proof (Forall_inv Hrows) as Hr. cbv beta in Hr.
    pose proof (Forall_inv_tail Hrows) as Hrest.
    cbn [List.concat]. rewrite <- app_assoc. destruct i as [|i].
    + change (0 * d + j)%nat with j. cbn [nth_error].
      apply nth_error_app1. lia.
    + rewrite nth_error_app2 by (cbn; lia).
      replace (S i * d + j - List.length r)%nat with (i * d + j)%nat by (cbn; lia).
      cbn [nth_error List.length Nat.sub]. now apply IH.
Qed.

(** ** FvecsRead on a file of records *)

Lemma dimension_accepted (d : Z) :
  0 < d < 1000000 -> (0 <? d) && (d <? 1000000) = true.
Proof.
  intros Hd. apply andb_true_iff. split; apply Z.ltb_lt; lia.
Qed.

Lemma fread_int_le32_bytes (w : Z) (rest : list byte) :
  is_word w ->
  fread_int (le32_bytes w ++ rest) = Returned (Int32.of_bits w).
Proof.
  intros Hw. cbn [le32_bytes app fread_int]. now rewrite le32_le32_bytes.
Qed.

Lemma length_rows_words (A : Type) (d : nat) (rows : list (A * list A)) :
  Forall (fun hr => List.length (snd hr) = d) rows ->
  List.length (flat_map (fun hr => fst hr :: snd hr) rows)
  = (List.length rows * (d + 1))%nat.
Proof.
  induction rows as [|[h r] rows IH]; intros Hrows.
  - reflexivity.
  - pose proof (Forall_inv Hrows) as Hr. cbn [snd] in Hr.
    cbn [flat_map fst snd List.length]. rewrite length_app, IH.
    + cbn [List.length]. lia.
    + exact (Forall_inv_tail Hrows).
Qed.

(** The reader on any file made of rows of [d] payload words, each
    behind one header word.  Only the first header is looked at: it fixes
    [d].  The array returned starts with the payloads, packed; [n] cells
    of no further use follow. *)
Lemma FvecsRead_rows (fs : filesystem) (fname : string) (d : Z)
      (h0 : Z) (r0 : list Z) (rows : list (Z * list Z)) :
  let all := (h0, r0) :: rows in
  let words := flat_map (fun hr => fst hr :: snd hr) all in
  fs fname = Some (flat_map le32_bytes words) ->
  Forall is_word words ->
  Int32.of_bits h0 = d ->
  0 < d < 1000000 ->
  Forall (fun hr => List.length (snd hr) = Z.to_nat d) all ->
  exists junk,
    List.length junk = List.length all /\
    FvecsRead fs fname
    = Returned (d, Z.of_nat (List.length all),
                List.concat (map snd all) ++ junk).
Proof.
  intros all words Hfs Hwords Hh0 Hd Hrows.
  assert (Hlen : List.length words = (List.length all * (Z.to_nat d + 1))%nat)
    by (apply length_rows_words; exact Hrows).
  assert (HlenZ : Z.of_nat (List.length words) = Z.of_nat (List.length all) * (d + 1))
    by (rewrite Hlen; lia).
  assert (Hsz : Z.of_nat (List.length (flat_map le32_bytes words))
                = Z.of_nat (List.length all) * ((d + 1) * 4))
    by (rewrite length_flat_map_le32_bytes; lia).
  destruct (FvecsRead_shift_rows Z (Z.to_nat d) all [] [] 0%nat
              eq_refl eq_refl Hrows) as (junk & Hjunk & Hshift).
  exists junk. split; [exact Hjunk|].
  unfold FvecsRead. rewrite Hfs.
  replace (fread_int (flat_map le32_bytes words)) with (Returned (A:=Z) d).
  2:{ subst words all. cbn [flat_map fst snd app].
      rewrite fread_int_le32_bytes, Hh0; [reflexivity|].
      exact (Forall_inv Hwords). }
  cbn [bind].
  rewrite dimension_accepted by exact Hd.
  cbn [assert bind]. rewrite Hsz, Z.mod_mul by lia.
  cbn [Z.eqb assert bind]. rewrite Z.div_mul by lia.
  rewrite <- HlenZ, Nat2Z.id.
  rewrite <- (app_nil_r (flat_map le32_bytes words)).
  rewrite fread_floats_le32_bytes by exact Hwords.
  rewrite Z.eqb_refl. cbn [assert bind].
  rewrite Nat2Z.id. cbn [app] in Hshift. fold words in Hshift.
  now rewrite Hshift.
Qed.

Lemma fvecs_file_words (d : Z) (records : list (list Z)) :
  fvecs_file d records = flat_map le32_bytes (fvecs_words d records).
Proof.
  unfold fvecs_file, fvecs_words.
  induction records as [|r records IH]; [reflexivity|].
  cbn [flat_map]. rewrite flat_map_app, IH. reflexivity.
Qed.

Lemma fvecs_words_rows (d : Z) (records : list (list Z)) :
  fvecs_words d records
  = flat_map (fun hr => fst hr :: snd hr)
      (map (fun r => (Int32.to_bits d, r)) records).
Proof.
  unfold fvecs_words. induction records as [|r records IH]; [reflexivity|].
  cbn [flat_map map fst snd]. now rewrite IH.
Qed.

(** The reader on a well-formed file. *)
Lemma FvecsRead_fvecs_file (fs : filesystem) (fname : string) (d n : Z)
      (records : list (list Z)) :
  well_formed d n records ->
  0 < n ->
  fs fname = Some (fvecs_file d records) ->
  exists junk,
    Z.of_nat (List.length junk) = n /\
    FvecsRead fs fname = Returned (d, n, List.concat records ++ junk).
Proof.
  intros (Hd & Hn & Hrecords) Hpos Hfs.
  destruct records as [|r0 records]; [cbn in Hn; lia|].
  rewrite fvecs_file_words, fvecs_words_rows in Hfs. cbn [map] in Hfs.
  destruct (FvecsRead_rows fs fname d (Int32.to_bits d) r0
              (map (fun r => (Int32.to_bits d, r)) records))
    as (junk & Hjunk & Hrun).
  - exact Hfs.
  - change ((Int32.to_bits d, r0) :: map (fun r => (Int32.to_bits d, r)) records)
      with (map (fun r => (Int32.to_bits d, r)) (r0 :: records)).
    rewrite <- fvecs_words_rows. unfold fvecs_words.
    apply Forall_flat_map. apply Forall_forall. intros r Hr.
    constructor; [apply Int32_to_bits_word|].
    rewrite Forall_forall in Hrecords. now apply Hrecords.
  - apply Int32_of_to_bits. unfold Int32.in_range, Int32.half.
    pow2. lia.
  - exact Hd.
  - change ((Int32.to_bits d, r0) :: map (fun r => (Int32.to_bits d, r)) records)
      with (map (fun r => (Int32.to_bits d, r)) (r0 :: records)).
    apply Forall_map. apply Forall_forall. intros r Hr. cbn [snd].
    rewrite Forall_forall in Hrecords. destruct (Hrecords r Hr) as [Hlen _]. lia.
  - change ((Int32.to_bits d, r0) :: map (fun r => (Int32.to_bits d, r)) records)
      with (map (fun r => (Int32.to_bits d, r)) (r0 :: records)) in *.
    rewrite length_map in Hjunk, Hrun. rewrite map_map in Hrun. cbn [snd] in Hrun.
    rewrite map_id in Hrun. rewrite Hn in Hrun.
    exists junk. split; [lia | exact Hrun].
Qed.

Lemma at_ij_packed (A : Type) (records : list (list A)) (junk : list A)
      (d n i j : Z) :
  Z.of_nat (List.length records) = n ->
  Forall (fun r => Z.of_nat (List.length r) = d) records ->
  0 <= i < n -> 0 <= j < d ->
  exists v,
    payload_ij records i j = Some v /\
    at_ij (List.concat records ++ junk) d i j = Some v.
Proof.
  intros Hn Hrecords Hi Hj. unfold at_ij, payload_ij.
  replace (Z.to_nat (i * d + j)) with (Z.to_nat i * Z.to_nat d + Z.to_nat j)%nat
    by nia.
  rewrite (nth_error_concat_rows A (Z.to_nat d)).
  - destruct (nth_error records (Z.to_nat i)) as [r|] eqn:Hr.
    + assert (Hlen : Z.of_nat (List.length r) = d).
      { rewrite Forall_forall in Hrecords. apply Hrecords.
        eapply nth_error_In. exact Hr. }
      destruct (nth_error r (Z.to_nat j)) as [v|] eqn:Hv.
      * exists v. auto.
      * apply nth_error_None in Hv. lia.
    + apply nth_error_None in Hr. lia.
  - eapply Forall_impl; [|exact Hrecords]. cbv beta. intros r Hr. lia.
  - lia.
Qed.

(** C2. On a well-formed file of [n] records of dimension [d],
    [FvecsRead] returns dimension [d], count [n] and an array whose
    first [n * d] elements are the payloads of the records in order,
    row-major: element [[i][j]] is payload element [j] of record [i], and
    no count prefix is among them. *)
Theorem FvecsRead_well_formed (fs : filesystem) (fname : string) (d n : Z)
        (records : list (list Z)) :
  well_formed d n records ->
  0 < n ->
  fs fname = Some (fvecs_file d records) ->
  exists x,
    FvecsRead fs fname = Returned (d, n, x) /\
    firstn (Z.to_nat (n * d)) x = List.concat records /\
    forall i j, 0 <= i < n -> 0 <= j < d ->
      exists v, payload_ij records i j = Some v /\ at_ij x d i j = Some v.
Proof.
  intros Hwf Hpos Hfs.
  destruct (FvecsRead_fvecs_file fs fname d n records Hwf Hpos Hfs)
    as (junk & Hjunk & Hrun).
  destruct Hwf as (Hd & Hn & Hrecords).
  assert (Hrows : Forall (fun r => Z.of_nat (List.length r) = d) records).
  { eapply Forall_impl; [|exact Hrecords]. cbv beta. intros r [Hr _]. exact Hr. }
  exists (List.concat records ++ junk). split; [exact Hrun|]. split.
  - replace (Z.to_nat (n * d)) with (List.length (List.concat records)).
    + apply firstn_length_app.
    + rewrite <- Hn. clear - Hrows.
      induction records as [|r records IH]; [reflexivity|].
      pose proof (Forall_inv Hrows) as Hr. cbv beta in Hr.
      cbn [List.concat]. rewrite length_app, (IH (Forall_inv_tail Hrows)).
      cbn [List.length]. nia.
  - intros i j Hi Hj. now apply at_ij_packed with (n := n).
Qed.

Lemma FvecsRead_well_formed_witness :
  let records := [[1065353216; 1073741824]; [1077936128; 1082130432]] in
  exists x,
    FvecsRead (fun _ => Some (fvecs_file 2 records)) "base.fvecs"
    = Returned (2, 2, x) /\
    firstn 4 x = [1065353216; 1073741824; 1077936128; 1082130432].
Proof.
  intros records.
  destruct (FvecsRead_well_formed (fun _ => Some (fvecs_file 2 records))
              "base.fvecs" 2 2 records) as (x & Hrun & Hfront & _).
  - split; [lia|]. split; [reflexivity|].
    repeat constructor; unfold is_word; simpl; lia.
  - lia.
  - reflexivity.
  - exists x. split; [exact Hrun | exact Hfront].
Defined.

(** C5, as the specification states it, fails on a file whose first
    integer is [0]: its four bytes are a multiple of [(0 + 1) * 4], yet
    the reader does not go on with one record but stops at the dimension
    check. *)
Lemma FvecsRead_zero_dimension :
  let bytes := [x00; x00; x00; x00] in
  fread_int bytes = Returned 0 /\
  Z.of_nat (List.length bytes) mod ((0 + 1) * 4) = 0 /\
  FvecsRead (fun _ => Some bytes) "base.fvecs"
  = Raised (AssertionFailed "unreasonable dimension").
Proof.
  repeat split; reflexivity.
Qed.

(** C5, amended.  For a file whose first integer is [d]: if
    [0 < d < 1000000], the reader fails with [MalformedDatasetError]
    when the file size is not a multiple of [(d + 1) * 4] and otherwise
    returns with count [size / ((d + 1) * 4)]; if [d] is outside that
    range, it fails with [MalformedDatasetError] whatever the size. *)
Theorem FvecsRead_size_check (fs : filesystem) (fname : string)
        (bytes : list byte) (d : Z) :
  fs fname = Some bytes ->
  fread_int bytes = Returned d ->
  let sz := Z.of_nat (List.length bytes) in
  (0 < d < 1000000 ->
     (sz mod ((d + 1) * 4) <> 0 ->
        exists e, FvecsRead fs fname = Raised e /\ MalformedDatasetError e) /\
     (sz mod ((d + 1) * 4) = 0 ->
        exists x, FvecsRead fs fname = Returned (d, sz / ((d + 1) * 4), x))) /\
  (~ 0 < d < 1000000 ->
     exists e, FvecsRead fs fname = Raised e /\ MalformedDatasetError e).
Proof.
  intros Hfs Hd sz. unfold FvecsRead. rewrite Hfs, Hd. cbn [bind]. fold sz.
  split.
  - intros Hrange.
    rewrite dimension_accepted by exact Hrange.
    cbn [assert bind]. split.
    + intros Hmod. apply Z.eqb_neq in Hmod. rewrite Hmod. cbn [assert bind].
      eexists. split; [reflexivity|]. right. now left.
    + intros Hmod. rewrite Hmod. cbn [Z.eqb assert bind].
      assert (Hsz : sz = (d + 1) * 4 * (sz / ((d + 1) * 4)))
        by (apply Z.div_exact; lia).
      assert (Hn : 0 <= sz / ((d + 1) * 4)) by (apply Z.div_pos; lia).
      rewrite length_fread_floats by lia.
      rewrite Z2Nat.id by nia. rewrite Z.eqb_refl. cbn [assert bind].
      eexists. reflexivity.
  - intros Hrange.
    replace ((0 <? d) && (d <? 1000000)) with false.
    + cbn [assert bind]. eexists. split; [reflexivity|]. now left.
    + symmetry. apply andb_false_iff.
      destruct (Z.ltb_spec 0 d); [|now left].
      right. apply Z.ltb_ge. lia.
Qed.

Lemma FvecsRead_size_check_witness :
  (exists e,
      FvecsRead (fun _ => Some [x01; x00; x00; x00; x07]) "base.fvecs" = Raised e /\
      MalformedDatasetError e) /\
  (exists x,
      FvecsRead (fun _ => Some [x01; x00; x00; x00; x07; x00; x00; x00])
        "base.fvecs" = Returned (1, 1, x)).
Proof.
  split.
  - destruct (FvecsRead_size_check (fun _ => Some [x01; x00; x00; x00; x07])
                "base.fvecs" [x01; x00; x00; x00; x07] 1 eq_refl eq_refl)
      as [Hin _].
    destruct Hin as [Hbad _]; [lia|].
    apply Hbad. discriminate.
  - destruct (FvecsRead_size_check
                (fun _ => Some [x01; x00; x00; x00; x07; x00; x00; x00])
                "base.fvecs" [x01; x00; x00; x00; x07; x00; x00; x00] 1
                eq_refl eq_refl) as [Hin _].
    destruct Hin as [_ Hgood]; [lia|].
    exact (Hgood eq_refl).
Defined.

(** C10. On a well-formed ground-truth file, [IvecsRead] returns the
    dimension, the count and the array of [FvecsRead], every element read
    as the [int] with the same 32 bits: element [[i][j]] is the two's
    complement reading of payload element [j] of record [i]. *)
Theorem IvecsRead_reinterprets (fs : filesystem) (fname : string) (d n : Z)
        (records : list (list Z)) :
  well_formed d n records ->
  0 < n ->
  fs fname = Some (fvecs_file d records) ->
  exists x,
    FvecsRead fs fname = Returned (d, n, x) /\
    IvecsRead fs fname = Returned (d, n, map Int32.of_bits x) /\
    forall i j, 0 <= i < n -> 0 <= j < d ->
      exists bits,
        payload_ij records i j = Some bits /\
        at_ij x d i j = Some bits /\
        at_ij (map Int32.of_bits x) d i j = Some (Int32.of_bits bits).
Proof.
  intros Hwf Hpos Hfs.
  destruct (FvecsRead_fvecs_file fs fname d n records Hwf Hpos Hfs)
    as (junk & _ & Hrun).
  destruct Hwf as (_ & Hn & Hrecords).
  exists (List.concat records ++ junk). split; [exact Hrun|]. split.
  - unfold IvecsRead. rewrite Hrun. reflexivity.
  - intros i j Hi Hj.
    destruct (at_ij_packed Z records junk d n i j Hn) as (bits & Hp & Hat);
      try assumption.
    { eapply Forall_impl; [|exact Hrecords]. cbv beta. intros r [Hr _]. exact Hr. }
    exists bits. split; [exact Hp|]. split; [exact Hat|].
    unfold at_ij in *. now rewrite nth_error_map, Hat.
Qed.

Lemma IvecsRead_reinterprets_witness :
  let records := [[7; 4294967295]; [3; 2147483648]] in
  exists x,
    IvecsRead (fun _ => Some (fvecs_file 2 records)) "gt.ivecs"
    = Returned (2, 2, map Int32.of_bits x) /\
    at_ij (map Int32.of_bits x) 2 0 1 = Some (-1) /\
    at_ij (map Int32.of_bits x) 2 1 1 = Some (-2147483648).
Proof.
  intros records.
  destruct (IvecsRead_reinterprets (fun _ => Some (fvecs_file 2 records))
              "gt.ivecs" 2 2 records) as (x & _ & Hrun & Hx).
  - split; [lia|]. split; [reflexivity|].
    repeat constructor; unfold is_word; simpl; lia.
  - lia.
  - reflexivity.
  - exists x. split; [exact Hrun|]. split.
    + destruct (Hx 0 1) as (bits & Hp & _ & Hi); [lia | lia |].
      cbv in Hp. injection Hp as <-. exact Hi.
    + destruct (Hx 1 1) as (bits & Hp & _ & Hi); [lia | lia |].
      cbv in Hp. injection Hp as <-. exact Hi.
Defined.

(** ** Strings *)

Lemma append_assoc (a b c : string) : ((a ++ b) ++ c = a ++ (b ++ c))%string.
Proof.
  induction a as [|x a IH]; simpl; [reflexivity | now rewrite IH].
Qed.

Lemma append_nil_r (a : string) : (a ++ "")%string = a.
Proof.
  induction a as [|x a IH]; simpl; [reflexivity | now rewrite IH].
Qed.

Lemma length_append (a b : string) :
  String.length (a ++ b) = (String.length a + String.length b)%nat.
Proof.
  induction a as [|x a IH]; simpl; [reflexivity | now rewrite IH].
Qed.


(** ** Vector2String *)

Lemma load_app (A : Type) (pre : list A) (x : A) (rest : list A) :
  load (pre ++ x :: rest) (Z.of_nat (List.length pre)) = Returned x.
Proof.
  unfold load. destruct (Z.ltb_spec (Z.of_nat (List.length pre)) 0); [lia|].
  rewrite Nat2Z.id, nth_error_app2, Nat.sub_diag by lia. reflexivity.
Qed.

(** The loop appends the elements with a separator between any two. *)
Lemma Vector2String_loop_spec (v : list Z) :
  forall (pre rest : list Z) (ss : string),
    Vector2String_loop (pre ++ v ++ rest)
      (Z.of_nat (List.length pre + List.length v))
      (Z.of_nat (List.length pre)) (List.length v) ss
    = Returned (ss ++ String.concat ", " (map fixed6 v))%string.
Proof.
  induction v as [|x v IH]; intros pre rest ss.
  - cbn. now rewrite append_nil_r.
  - cbn [List.length Vector2String_loop app]. rewrite load_app. cbn [bind].
    replace (Z.of_nat (List.length pre) + 1)
      with (Z.of_nat (List.length (pre ++ [x])))
      by (rewrite length_app; cbn [List.length]; lia).
    replace (pre ++ x :: v ++ rest) with ((pre ++ [x]) ++ v ++ rest)
      by (rewrite <- app_assoc; reflexivity).
    replace (List.length pre + S (List.length v))%nat
      with (List.length (pre ++ [x]) + List.length v)%nat
      by (rewrite length_app; cbn [List.length]; lia).
    rewrite IH. destruct v as [|y v].
    + replace (Z.of_nat (List.length pre) <?
               Z.of_nat (List.length (pre ++ [x]) + List.length (@nil Z)) - 1)
        with false
        by (symmetry; apply Z.ltb_ge; rewrite length_app; cbn [List.length]; lia).
      cbn. now rewrite append_nil_r.
    + replace (Z.of_nat (List.length pre) <?
               Z.of_nat (List.length (pre ++ [x]) + List.length (y :: v)) - 1)
        with true
        by (symmetry; apply Z.ltb_lt; rewrite length_app; cbn [List.length]; lia).
      cbn [map String.concat]. now rewrite !append_assoc.
Qed.

(** [Vector2String] on a pointer to at least [n] elements returns the
    literal of the first [n]. *)
Lemma Vector2String_literal (v rest : list Z) :
  Vector2String (v ++ rest) (Z.of_nat (List.length v)) = Returned (literal v).
Proof.
  unfold Vector2String. rewrite Nat2Z.id.
  pose proof (Vector2String_loop_spec v [] rest "[") as H.
  cbn [app List.length Nat.add Z.of_nat] in H. rewrite H. reflexivity.
Qed.

Lemma Vector2String_literal_n (v rest : list Z) (n : Z) :
  Z.of_nat (List.length v) = n ->
  Vector2String (v ++ rest) n = Returned (literal v).
Proof.
  intros <-. apply Vector2String_literal.
Qed.

(** ** Decimal text *)

Lemma digit_of_ascii_digit_char (k : Z) :
  0 <= k < 10 -> digit_of_ascii (digit_char k) = Some k.
Proof.
  intros Hk. unfold digit_of_ascii, digit_char.
  rewrite N_ascii_embedding by lia.
  rewrite Z2N.id by lia.
  replace ((48 <=? 48 + k) && (48 + k <=? 57)) with true
    by (symmetry; apply andb_true_iff; split; apply Z.leb_le; lia).
  f_equal. lia.
Qed.

Lemma digits_le_range (fuel : nat) :
  forall n, 0 <= n -> Forall (fun k => 0 <= k < 10) (digits_le fuel n).
Proof.
  induction fuel as [|fuel IH]; intros n Hn; cbn [digits_le].
  - constructor.
  - constructor.
    + apply Z.mod_pos_bound. lia.
    + destruct (n <? 10); [constructor|]. apply IH. apply Z.div_pos; lia.
Qed.

(** The digits, least significant first, add up to the number. *)
Lemma digits_le_value (fuel : nat) :
  forall n,
    0 <= n < 10 ^ Z.of_nat fuel ->
    fold_right (fun k a => 10 * a + k) 0 (digits_le fuel n) = n.
Proof.
  induction fuel as [|fuel IH]; intros n Hn.
  - change (10 ^ Z.of_nat 0) with 1 in Hn. cbn [digits_le fold_right]. lia.
  - cbn [digits_le fold_right]. destruct (Z.ltb_spec n 10) as [Hlt|Hge].
    + cbn [fold_right]. rewrite Z.mod_small; lia.
    + rewrite IH.
      * pose proof (Z.div_mod n 10). lia.
      * rewrite Nat2Z.inj_succ, Z.pow_succ_r in Hn by lia.
        split; [apply Z.div_pos; lia|].
        apply Z.div_lt_upper_bound; lia.
Qed.

Lemma decimal_fuel (n : Z) :
  0 <= n -> n < 10 ^ Z.of_nat (S (Z.to_nat (Z.log2 n))).
Proof.
  intros Hn. rewrite Nat2Z.inj_succ, Z2Nat.id by apply Z.log2_nonneg.
  destruct (Z.eq_dec n 0) as [->|Hne].
  - cbn. lia.
  - pose proof (Z.log2_spec n ltac:(lia)) as [_ Hlt].
    pose proof (Z.log2_nonneg n).
    eapply Z.lt_le_trans; [exact Hlt|].
    apply Z.pow_le_mono_l. lia.
Qed.

Lemma take_digits_digit_chars (ds : list Z) (rest : string) :
  Forall (fun k => 0 <= k < 10) ds ->
  take_digits (string_of_list_ascii (map digit_char ds) ++ rest)
  = ds ++ take_digits rest.
Proof.
  induction 1 as [|k ds Hk _ IH]; [reflexivity|].
  cbn [map string_of_list_ascii append take_digits].
  rewrite digit_of_ascii_digit_char by exact Hk. now rewrite IH.
Qed.

(** Reading the digits of [decimal n] gives [n] back. *)
Lemma digits_value_decimal (n : Z) (rest : string) :
  0 <= n -> take_digits rest = [] ->
  digits_value (take_digits (decimal n ++ rest)) = n.
Proof.
  intros Hn Hrest. unfold decimal.
  rewrite take_digits_digit_chars, Hrest, app_nil_r.
  - unfold digits_value. rewrite <- fold_left_rev_right, rev_involutive.
    apply digits_le_value. split; [exact Hn | now apply decimal_fuel].
  - apply Forall_rev. now apply digits_le_range.
Qed.


Lemma all_chars_append (P : ascii -> bool) (a b : string) :
  all_chars P (a ++ b) = all_chars P a && all_chars P b.
Proof.
  induction a as [|x a IH]; simpl; [reflexivity|].
  now rewrite IH, andb_assoc.
Qed.

Lemma all_chars_impl (P Q : ascii -> bool) (s : string) :
  (forall c, P c = true -> Q c = true) ->
  all_chars P s = true -> all_chars Q s = true.
Proof.
  intros HPQ. induction s as [|c s IH]; simpl; [reflexivity|].
  intros H. apply andb_true_iff in H as [Hc Hs].
  apply andb_true_iff. split; [now apply HPQ | now apply IH].
Qed.

Lemma all_chars_digit_chars (ds : list Z) :
  Forall (fun k => 0 <= k < 10) ds ->
  all_chars is_digit (string_of_list_ascii (map digit_char ds)) = true.
Proof.
  induction 1 as [|k ds Hk _ IH]; [reflexivity|].
  cbn [map string_of_list_ascii all_chars]. unfold is_digit at 1.
  now rewrite digit_of_ascii_digit_char, IH.
Qed.

Lemma decimal_digits (n : Z) : 0 <= n -> all_chars is_digit (decimal n) = true.
Proof.
  intros Hn. apply all_chars_digit_chars, Forall_rev. now apply digits_le_range.
Qed.


(** ** The last word of a string *)



(** ** The insertion loop *)

Lemma Int32_of_bits_small (z : Z) : 0 <= z < 2 ^ 31 -> Int32.of_bits z = z.
Proof.
  intros Hz. unfold Int32.of_bits, Int32.modulus, Int32.half.
  pow2.
  rewrite Z.mod_small by lia.
  destruct (Z.ltb_spec z 2147483648); lia.
Qed.

(** The loop from row [i] on, with the rows before it ([done], packed)
    behind the pointer: it returns whatever the backend answers, having
    submitted one statement per row and logged one line per failure. *)
Lemma InsertIndexVectorData_loop_run (world : Type)
      (ExecuteSql : string -> writer_kind -> world -> bool * world)
      (d2 : Z) (rows : list (list Z)) :
  0 <= d2 < 2 ^ 31 ->
  Forall (fun r => Z.of_nat (List.length r) = d2) rows ->
  forall (done tail : list Z) (i : Z) (st : state world),
    0 <= i ->
    Z.of_nat (List.length done) = i * d2 ->
    exists st',
      InsertIndexVectorData_loop world ExecuteSql
        (done ++ List.concat rows ++ tail) d2 i (List.length rows) st
      = Returned st' /\
      executed st' = executed st ++ insert_statements i rows /\
      cerr st' = (cerr st ++
                  failure_log i (insert_statuses world ExecuteSql i rows (bustub st)))%string.
Proof.
  intros Hd2. induction 1 as [|r rows Hr Hrows IH]; intros done tail i st Hi Hdone.
  - exists st. cbn. now rewrite app_nil_r, append_nil_r.
  - cbn [List.length InsertIndexVectorData_loop List.concat].
    unfold advance. rewrite <- Hdone, Nat2Z.id, skipn_length_app.
    rewrite Int32_of_bits_small, <- app_assoc by exact Hd2.
    rewrite (Vector2String_literal_n r _ d2) by exact Hr. cbn [bind].
    fold (insert_statement r i).
    cbn [insert_statements insert_statuses failure_log].
    unfold run_sql.
    destruct (ExecuteSql (insert_statement r i) NoopWriter (bustub st))
      as [status w] eqn:Hexec.
    set (st1 := if status
                then mkState w (cerr st) (executed st ++ [insert_statement r i])
                else mkState w (cerr st ++ insert_failed i)
                       (executed st ++ [insert_statement r i])).
    destruct (IH (done ++ r) tail (i + 1) st1) as (st' & Hrun & Hexe & Hcerr).
    + lia.
    + rewrite length_app. lia.
    + exists st'. split; [|split].
      * rewrite <- Hrun. rewrite <- !app_assoc.
        subst st1. destruct status; reflexivity.
      * rewrite Hexe. subst st1. destruct status; cbn [executed];
          now rewrite <- app_assoc.
      * rewrite Hcerr. subst st1. destruct status; cbn [cerr bustub append].
        -- reflexivity.
        -- now rewrite append_assoc.
Qed.






Lemma well_formedb_ok (d n : Z) (records : list (list Z)) :
  well_formedb d n records = true -> well_formed d n records.
Proof.
  unfold well_formedb, well_formed. intros H.
  repeat (apply andb_true_iff in H as [H ?]).
  split; [lia|]. split; [lia|].
  apply Forall_forall. intros r Hr.
  match goal with
  | Hall : forallb _ records = true |- _ =>
      rewrite forallb_forall in Hall; specialize (Hall r Hr);
      apply andb_true_iff in Hall as [Hlen Hwords]
  end.
  split; [lia|]. apply Forall_forall. intros w Hw.
  rewrite forallb_forall in Hwords. specialize (Hwords w Hw).
  unfold is_word. lia.
Qed.



(** The whole of [InsertIndexVectorData] on a well-formed base file of
    dimension 128, when the index can be created: the index statement,
    then one insert statement per record. *)
Lemma InsertIndexVectorData_run (world : Type)
      (ExecuteSql : string -> writer_kind -> world -> bool * world)
      (fs : filesystem) (n : Z) (records : list (list Z))
      (st : state world) (w : world) :
  well_formed 128 n records ->
  0 < n ->
  fs "sift1M/sift_base.fvecs"%string = Some (fvecs_file 128 records) ->
  ExecuteSql create_index NoopWriter (bustub st) = (true, w) ->
  exists st',
    InsertIndexVectorData world ExecuteSql fs st = Returned st' /\
    executed st' = executed st ++ create_index :: insert_statements 0 records.
Proof.
  intros Hwf Hpos Hfs Hexec.
  destruct (FvecsRead_fvecs_file fs _ 128 n records Hwf Hpos Hfs)
    as (junk & _ & Hread).
  destruct Hwf as (_ & Hn & Hrecords).
  unfold InsertIndexVectorData, run_sql. rewrite Hexec. cbn [assert bind].
  rewrite Hread. cbn [bind Z.eqb Pos.eqb assert].
  rewrite <- Hn, Nat2Z.id.
  destruct (InsertIndexVectorData_loop_run world ExecuteSql 128 records)
    with (done := @nil Z) (tail := junk) (i := 0)
         (st := mkState w (cerr st) (executed st ++ [create_index]))
    as (st' & Hrun & Hexe & _).
  - pow2. lia.
  - eapply Forall_impl; [|exact Hrecords]. cbv beta. intros r [Hr _]. exact Hr.
  - lia.
  - reflexivity.
  - exists st'. split; [exact Hrun|].
    rewrite Hexe. cbn [executed]. now rewrite <- app_assoc.
Qed.

Lemma failure_log_app (a b : list bool) :
  forall i,
    failure_log i (a ++ b)
    = (failure_log i a ++ failure_log (i + Z.of_nat (List.length a)) b)%string.
Proof.
  induction a as [|ok a IH]; intros i.
  - cbn. now rewrite Z.add_0_r.
  - cbn [app failure_log List.length]. rewrite IH, append_assoc.
    do 3 f_equal. lia.
Qed.

Lemma length_insert_statuses (world : Type)
      (ExecuteSql : string -> writer_kind -> world -> bool * world)
      (rows : list (list Z)) :
  forall i w,
    List.length (insert_statuses world ExecuteSql i rows w) = List.length rows.
Proof.
  induction rows as [|r rows IH]; intros i w; cbn [insert_statuses].
  - reflexivity.
  - destruct (ExecuteSql (insert_statement r i) NoopWriter w) as [status w'].
    cbn [List.length]. now rewrite IH.
Qed.

(** Whatever status the backend gives to each insert statement, the
    insertion loop entered at row 0 returns, and it has submitted the
    statement of every row, in order, exactly as it does when nothing
    fails; the diagnostics are one line per failed row, in order, and the
    line for a failed row [k] carries the index [k]. *)
Lemma InsertIndexVectorData_loop_failures (world : Type)
        (ExecuteSql : string -> writer_kind -> world -> bool * world)
        (d2 : Z) (rows : list (list Z)) (tail : list Z) (st : state world) :
  0 <= d2 < 2 ^ 31 ->
  Forall (fun r => Z.of_nat (List.length r) = d2) rows ->
  let statuses := insert_statuses world ExecuteSql 0 rows (bustub st) in
  exists st',
    InsertIndexVectorData_loop world ExecuteSql (List.concat rows ++ tail) d2 0
      (List.length rows) st = Returned st' /\
    executed st' = executed st ++ insert_statements 0 rows /\
    List.length statuses = List.length rows /\
    cerr st' = (cerr st ++ failure_log 0 statuses)%string /\
    forall k : nat,
      nth_error statuses k = Some false ->
      failure_log 0 statuses
      = (failure_log 0 (firstn k statuses) ++
         "Insert data failed: index = " ++ to_string (Z.of_nat k) ++ String "010" "" ++
         failure_log (Z.of_nat k + 1) (skipn (S k) statuses))%string.
Proof.
  intros Hd2 Hrows statuses.
  destruct (InsertIndexVectorData_loop_run world ExecuteSql d2 rows Hd2 Hrows
              [] tail 0 st) as (st' & Hrun & Hexe & Hcerr); [lia | cbn; lia |].
  exists st'. split; [exact Hrun|]. split; [exact Hexe|].
  split; [apply length_insert_statuses|]. split; [exact Hcerr|].
  intros k Hk. apply nth_error_split in Hk as (before & after & Hsplit & Hlen).
  rewrite Hsplit, failure_log_app, <- Hlen.
  rewrite firstn_length_app.
  replace (S (List.length before)) with (List.length (before ++ [false]))
    by (rewrite length_app; cbn; lia).
  replace (before ++ false :: after) with ((before ++ [false]) ++ after)
    by (rewrite <- app_assoc; reflexivity).
  rewrite skipn_length_app. cbn [failure_log]. unfold insert_failed.
  rewrite !append_assoc. reflexivity.
Qed.

(** C9. [InsertIndexVectorData] on a well-formed base file of [n]
    records of dimension 128, once the index statement is accepted:
    whatever status the backend gives to each insert statement, the
    function returns, and it has submitted the statement of every row, in
    order, exactly as it does when nothing fails; [std::cerr] receives
    one line per failed row, in order, and the line for a failed row [k]
    carries the index [k]. *)
Theorem InsertIndexVectorData_failure_nonfatal (world : Type)
        (ExecuteSql : string -> writer_kind -> world -> bool * world)
        (fs : filesystem) (n : Z) (records : list (list Z))
        (st : state world) (w : world) :
  well_formed 128 n records ->
  0 < n ->
  fs "sift1M/sift_base.fvecs"%string = Some (fvecs_file 128 records) ->
  ExecuteSql create_index NoopWriter (bustub st) = (true, w) ->
  let statuses := insert_statuses world ExecuteSql 0 records w in
  exists st',
    InsertIndexVectorData world ExecuteSql fs st = Returned st' /\
    executed st' = executed st ++ create_index :: insert_statements 0 records /\
    Z.of_nat (List.length statuses) = n /\
    cerr st' = (cerr st ++ failure_log 0 statuses)%string /\
    forall k : nat,
      nth_error statuses k = Some false ->
      failure_log 0 statuses
      = (failure_log 0 (firstn k statuses) ++
         "Insert data failed: index = " ++ to_string (Z.of_nat k) ++ String "010" "" ++
         failure_log (Z.of_nat k + 1) (skipn (S k) statuses))%string.
Proof.
  intros Hwf Hpos Hfs Hexec statuses.
  destruct (FvecsRead_fvecs_file fs _ 128 n records Hwf Hpos Hfs)
    as (junk & _ & Hread).
  destruct Hwf as (_ & Hn & Hrecords).
  assert (Hrows : Forall (fun r => Z.of_nat (List.length r) = 128) records).
  { eapply Forall_impl; [|exact Hrecords]. cbv beta. intros r [Hr _]. exact Hr. }
  destruct (InsertIndexVectorData_loop_failures world ExecuteSql 128 records junk
              (mkState w (cerr st) (executed st ++ [create_index])))
    as (st' & Hrun & Hexe & Hlen & Hcerr & Hline); [pow2; lia | exact Hrows |].
  cbn [bustub cerr executed] in Hexe, Hlen, Hcerr, Hline.
  exists st'. split; [|split; [|split; [|split]]].
  - unfold InsertIndexVectorData, run_sql. rewrite Hexec. cbn [assert bind].
    rewrite Hread. cbn [bind Z.eqb Pos.eqb assert].
    rewrite <- Hn, Nat2Z.id. exact Hrun.
  - rewrite Hexe. now rewrite <- app_assoc.
  - unfold statuses. rewrite Hlen. exact Hn.
  - exact Hcerr.
  - exact Hline.
Qed.

Lemma InsertIndexVectorData_failure_nonfatal_witness :
  let records := [repeat 1065353216 128; repeat 1073741824 128; repeat 0 128] in
  exists st',
    InsertIndexVectorData nat (reject_nth 2)
      (fun _ => Some (fvecs_file 128 records)) (mkState 0%nat "" [])
    = Returned st' /\
    executed st'
    = [create_index;
       insert_statement (repeat 1065353216 128) 0;
       insert_statement (repeat 1073741824 128) 1;
       insert_statement (repeat 0 128) 2] /\
    cerr st' = ("Insert data failed: index = 1" ++ String "010" "")%string.
Proof.
  intros records.
  destruct (InsertIndexVectorData_failure_nonfatal nat (reject_nth 2)
              (fun _ => Some (fvecs_file 128 records)) 3 records
              (mkState 0%nat "" []) 1%nat)
    as (st' & Hrun & Hexe & _ & Hcerr & _).
  - apply well_formedb_ok. reflexivity.
  - lia.
  - reflexivity.
  - reflexivity.
  - exists st'. split; [exact Hrun|]. split; [exact Hexe | exact Hcerr].
Defined.

(** ** The ground-truth row a query is scored against *)

(** With rows of width 100 the pointer handed to [AddQueryResult] is the
    start of row [i]. *)
Lemma DoANNQuery_gt_row_100 (gt : list Z) (i : Z) :
  firstn 100 (DoANNQuery_gt_row gt i) = GroundTruth_row gt 100 i.
Proof.
  unfold DoANNQuery_gt_row, GroundTruth_row. now rewrite (Z.mul_comm 100 i).
Qed.

(** C3 does not hold of the code.  The ground-truth file of this run
    declares rows of width 60, and the backend answers each of the two
    queries with the first entry of its row.  [main] loads the matrix with
    that width, but [DoANNQuery] scores query 1 against the identifiers
    from the flat offset 100 on, which lie inside row 1 and start with
    100, not against row 1, which starts at offset 60 with 60: one hit is
    counted where the two rows give two. *)
Theorem DoANNQuery_row_width_60 :
  IvecsRead k60_fs "sift1M/sift_groundtruth.ivecs"
  = Returned (60, 2, List.concat k60_ground_truth ++ [118; 119]) /\
  (let gt := List.concat k60_ground_truth in
   GroundTruth_row gt 60 1 = nth 1 k60_ground_truth [] /\
   load (GroundTruth_row gt 60 1) 0 = Returned 60 /\
   load (DoANNQuery_gt_row gt 1) 0 = Returned 100 /\
   firstn 60 (DoANNQuery_gt_row gt 1) <> GroundTruth_row gt 60 1) /\
  (exists st,
      main nat k60_ExecuteSql k60_values_ k60_fs 0%nat
      = Returned (st, mkMetric 1 1 1 2, (FQuot 1 2, FQuot 1 2, FQuot 1 2))).
Proof.
  split; [vm_compute; reflexivity|]. split.
  - cbv zeta. repeat split; try (vm_compute; reflexivity).
    vm_compute. discriminate.
  - eexists. vm_compute. reflexivity.
Qed.

(** ** Rounding to six decimals *)

Lemma Float32_mant_nonneg (bits : Z) : 0 <= Float32.mant bits.
Proof.
  unfold Float32.mant, Float32.frac.
  assert (0 <= Z.land bits (2 ^ 23 - 1)) by (apply Z.land_nonneg; right; lia).
  destruct (Float32.expo bits =? 0); lia.
Qed.

(** Rounding to nearest moves a quotient by at most one half. *)
Lemma round_half_even_bound (num den : Z) :
  0 <= num -> 0 < den ->
  0 <= round_half_even num den /\
  Z.abs (2 * round_half_even num den * den - 2 * num) <= den.
Proof.
  intros Hnum Hden. unfold round_half_even.
  pose proof (Z.div_mod num den ltac:(lia)) as Hdm.
  pose proof (Z.mod_pos_bound num den Hden) as Hr.
  pose proof (Z.div_pos num den Hnum Hden) as Hq.
  set (q := num / den) in *. set (r := num mod den) in *.
  destruct ((den <? 2 * r) || ((den =? 2 * r) && Z.odd q)) eqn:Hup.
  - split; [lia|].
    apply orb_true_iff in Hup as [Hup | Hup].
    + apply Z.ltb_lt in Hup. nia.
    + apply andb_true_iff in Hup as [Hup _]. apply Z.eqb_eq in Hup. nia.
  - split; [lia|].
    apply orb_false_iff in Hup as [Hup _]. apply Z.ltb_ge in Hup. nia.
Qed.

Lemma scaled6_nonneg (bits : Z) : 0 <= scaled6 bits.
Proof.
  unfold scaled6. pose proof (Float32_mant_nonneg bits) as HM.
  destruct (Z.leb_spec 0 (Float32.ex bits)) as [He|He].
  - apply Z.mul_nonneg_nonneg; [lia|]. apply Z.pow_nonneg. lia.
  - apply round_half_even_bound; [lia|]. apply Z.pow_pos_nonneg; lia.
Qed.

(** The magnitude of a float is a fraction [n / den], and the scaled,
    rounded magnitude is within one half of [10 ^ 6 * n / den]. *)
Lemma magnitude_scaled6 (bits : Z) :
  exists (n : Z) (den : positive),
    (Float32.magnitude bits == n # den)%Q /\
    Z.abs (2 * scaled6 bits * Z.pos den - 2 * (n * 10 ^ 6)) <= Z.pos den.
Proof.
  unfold Float32.magnitude, scaled6.
  pose proof (Float32_mant_nonneg bits) as HM.
  set (M := Float32.mant bits) in *. set (e := Float32.ex bits).
  clearbody M e.
  destruct (Z.leb_spec 0 e) as [He|He].
  - exists (M * 2 ^ e), 1%positive. split.
    + change ((M * 2 ^ e) # 1)%Q with (inject_Z (M * 2 ^ e)).
      rewrite inject_Z_mult, Zpower_Qpower by exact He. reflexivity.
    + lia.
  - assert (HD : 0 < 2 ^ (- e)) by (apply Z.pow_pos_nonneg; lia).
    exists M, (Z.to_pos (2 ^ (- e))). split.
    + replace e with (- - e) at 1 by lia.
      change 2%Q with (inject_Z 2).
      rewrite Qpower_opp, <- (Zpower_Qpower 2 (- e)) by lia.
      destruct (2 ^ (- e)) as [|p|p] eqn:Hp; try lia.
      unfold Qeq, Qmult, Qinv, inject_Z. cbn [Qnum Qden Z.to_pos Pos.mul]. lia.
    + rewrite Z2Pos.id by exact HD.
      destruct (round_half_even_bound (M * 10 ^ 6) (2 ^ (- e))) as [_ Hb];
        [lia | exact HD | exact Hb].
Qed.

(** A finite float and its magnitude scaled, rounded and read as
    millionths differ by at most half a millionth, under either sign. *)
Lemma scaled6_close (bits : Z) (neg : bool) :
  (Qabs ((if neg then - (scaled6 bits # 1000000) else scaled6 bits # 1000000)
         - (if neg then - Float32.magnitude bits else Float32.magnitude bits))
   <= 1 # 2000000)%Q.
Proof.
  destruct (magnitude_scaled6 bits) as (n & den & Hmag & Hb).
  change (10 ^ 6) with 1000000 in Hb.
  assert (Hpos : (Qabs ((scaled6 bits # 1000000) - (n # den)) <= 1 # 2000000)%Q).
  { apply Qabs_Qle_condition.
    unfold Qle, Qminus, Qplus, Qopp. cbn [Qnum Qden]. split; lia. }
  destruct neg; rewrite Hmag.
  - setoid_replace (- (scaled6 bits # 1000000) - - (n # den))%Q
      with (- ((scaled6 bits # 1000000) - (n # den)))%Q by ring.
    now rewrite Qabs_opp.
  - exact Hpos.
Qed.

(** ** Splitting and trimming *)

Lemma split_at_no_sep (sep : ascii) (s : string) :
  all_chars (not_char sep) s = true -> split_at sep s = [s].
Proof.
  induction s as [|c s IH]; intros H; [reflexivity|].
  cbn [all_chars] in H. apply andb_true_iff in H as [Hc Hs].
  unfold not_char in Hc. apply negb_true_iff in Hc.
  cbn [split_at]. now rewrite Hc, IH.
Qed.

Lemma split_at_app (sep : ascii) (a b : string) :
  all_chars (not_char sep) a = true ->
  split_at sep (a ++ String sep b) = a :: split_at sep b.
Proof.
  induction a as [|c a IH]; intros H.
  - cbn [append split_at]. now rewrite Ascii.eqb_refl.
  - cbn [all_chars] in H. apply andb_true_iff in H as [Hc Ha].
    unfold not_char in Hc. apply negb_true_iff in Hc.
    cbn [append split_at]. now rewrite Hc, IH.
Qed.

Lemma drop_last_append (c : ascii) (s : string) :
  drop_last c (s ++ String c "") = Some s.
Proof.
  induction s as [|x s IH].
  - cbn. now rewrite Ascii.eqb_refl.
  - cbn [append drop_last]. rewrite IH. now destruct s.
Qed.

(** The pieces of a comma-and-space separated list of texts without
    commas: the first text, then every other behind its space. *)
Lemma split_at_concat (e : string) (es : list string) :
  Forall (fun s => all_chars (not_char ",") s = true) (e :: es) ->
  split_at "," (String.concat ", " (e :: es)) = e :: map (String " ") es.
Proof.
  revert e. induction es as [|e' es IH]; intros e H.
  - cbn [String.concat map]. apply split_at_no_sep. exact (Forall_inv H).
  - change (String.concat ", " (e :: e' :: es))
      with (e ++ String "," (String " " (String.concat ", " (e' :: es))))%string.
    rewrite split_at_app by exact (Forall_inv H).
    cbn [split_at map]. rewrite (IH e' (Forall_inv_tail H)). reflexivity.
Qed.

(** ** Reading decimal text *)

Lemma length_string_of_list_ascii (l : list ascii) :
  String.length (string_of_list_ascii l) = List.length l.
Proof.
  induction l as [|c l IH]; cbn; [reflexivity | now rewrite IH].
Qed.

Lemma length_decimal_pos (n : Z) : (0 < String.length (decimal n))%nat.
Proof.
  unfold decimal. rewrite length_string_of_list_ascii, length_map, length_rev.
  cbn [digits_le List.length]. lia.
Qed.

Lemma parse_digits_decimal (n : Z) : 0 <= n -> parse_digits (decimal n) = Some n.
Proof.
  intros Hn. unfold parse_digits.
  pose proof (length_decimal_pos n) as Hlen.
  replace (0 <? Z.of_nat (String.length (decimal n))) with true
    by (symmetry; apply Z.ltb_lt; lia).
  rewrite decimal_digits by exact Hn. cbn [andb].
  rewrite <- (append_nil_r (decimal n)) at 1.
  now rewrite digits_value_decimal.
Qed.

Lemma parse_digits_digits6 (f : Z) :
  0 <= f < 10 ^ 6 ->
  parse_digits (digits6 f) = Some f /\
  all_chars is_digit (digits6 f) = true /\
  String.length (digits6 f) = 6%nat.
Proof.
  intros Hf. change (10 ^ 6) with 1000000 in Hf.
  assert (Hds : Forall (fun k => 0 <= k < 10)
                  [f / 100000 mod 10; f / 10000 mod 10; f / 1000 mod 10;
                   f / 100 mod 10; f / 10 mod 10; f mod 10])
    by (repeat (apply Forall_cons; [apply Z.mod_pos_bound; lia|]); constructor).
  assert (Hall : all_chars is_digit (digits6 f) = true)
    by (apply all_chars_digit_chars; exact Hds).
  split; [|split; [exact Hall | reflexivity]].
  unfold parse_digits. rewrite Hall.
  change (0 <? Z.of_nat (String.length (digits6 f))) with true. cbn [andb].
  rewrite <- (append_nil_r (digits6 f)). unfold digits6.
  rewrite take_digits_digit_chars by exact Hds.
  cbn [take_digits app]. unfold digits_value. cbn [fold_left]. f_equal.
  replace (f / 100000) with (f / 10 / 10 / 10 / 10 / 10)
    by (rewrite !Z.div_div by lia; reflexivity).
  replace (f / 10000) with (f / 10 / 10 / 10 / 10)
    by (rewrite !Z.div_div by lia; reflexivity).
  replace (f / 1000) with (f / 10 / 10 / 10)
    by (rewrite !Z.div_div by lia; reflexivity).
  replace (f / 100) with (f / 10 / 10)
    by (rewrite !Z.div_div by lia; reflexivity).
  Z.to_euclidean_division_equations. lia.
Qed.

(** ** The text of a finite float *)

Lemma fixed6_finite (x : Z) :
  Float32.is_finite x = true ->
  fixed6 x
  = ((if Float32.sign x then "-" else "") ++
     decimal (scaled6 x / 10 ^ 6) ++ String "." (digits6 (scaled6 x mod 10 ^ 6)))%string.
Proof.
  intros Hfin. unfold fixed6. now rewrite Hfin.
Qed.

Lemma is_digit_not_char (x c : ascii) :
  is_digit x = false -> is_digit c = true -> not_char x c = true.
Proof.
  intros Hx Hc. unfold not_char.
  destruct (Ascii.eqb_spec c x) as [->|]; [congruence | reflexivity].
Qed.

Lemma is_digit_fixed_char (c : ascii) : is_digit c = true -> fixed_char c = true.
Proof.
  intros H. unfold fixed_char. now rewrite H.
Qed.

Lemma fixed_char_not_comma (c : ascii) :
  fixed_char c = true -> not_char "," c = true.
Proof.
  unfold fixed_char, not_char. intros H.
  destruct (Ascii.eqb_spec c ",") as [->|]; [discriminate | reflexivity].
Qed.

(** The integer and fraction digits of a finite float's text. *)
Lemma fixed6_parts (x : Z) :
  let ip := decimal (scaled6 x / 10 ^ 6) in
  let fp := digits6 (scaled6 x mod 10 ^ 6) in
  parse_digits ip = Some (scaled6 x / 10 ^ 6) /\
  all_chars is_digit ip = true /\
  ip <> ""%string /\
  parse_digits fp = Some (scaled6 x mod 10 ^ 6) /\
  all_chars is_digit fp = true /\
  String.length fp = 6%nat.
Proof.
  intros ip fp. pose proof (scaled6_nonneg x) as Hs.
  assert (Hip : 0 <= scaled6 x / 10 ^ 6) by (apply Z.div_pos; lia).
  assert (Hfp : 0 <= scaled6 x mod 10 ^ 6 < 10 ^ 6) by (apply Z.mod_pos_bound; lia).
  destruct (parse_digits_digits6 _ Hfp) as (Hpf & Hallf & Hlenf).
  repeat split; try assumption.
  - now apply parse_digits_decimal.
  - now apply decimal_digits.
  - intros Hempty. pose proof (length_decimal_pos (scaled6 x / 10 ^ 6)) as Hlen.
    fold ip in Hlen. rewrite Hempty in Hlen. cbn in Hlen. lia.
Qed.

Lemma parse_unsigned_fixed_fixed6 (x : Z) (neg : bool) :
  parse_unsigned_fixed neg
    (decimal (scaled6 x / 10 ^ 6) ++ String "." (digits6 (scaled6 x mod 10 ^ 6)))
  = Some (if neg then Qopp (scaled6 x # 1000000) else scaled6 x # 1000000).
Proof.
  destruct (fixed6_parts x) as (Hpi & Halli & _ & Hpf & Hallf & Hlenf).
  unfold parse_unsigned_fixed.
  rewrite split_at_app, split_at_no_sep.
  - rewrite Hpi, Hpf, Hlenf. cbn [Nat.eqb].
    replace (scaled6 x / 10 ^ 6 * 10 ^ 6 + scaled6 x mod 10 ^ 6) with (scaled6 x)
      by (pose proof (Z.div_mod (scaled6 x) (10 ^ 6)); lia).
    reflexivity.
  - apply all_chars_impl with (P := is_digit); [|exact Hallf].
    intros c. now apply is_digit_not_char.
  - apply all_chars_impl with (P := is_digit); [|exact Halli].
    intros c. now apply is_digit_not_char.
Qed.

(** Reading the text of a finite float gives the float rounded to six
    decimals. *)
Lemma parse_fixed_fixed6 (x : Z) :
  Float32.is_finite x = true -> parse_fixed (fixed6 x) = Some (rounded6 x).
Proof.
  intros Hfin. rewrite fixed6_finite by exact Hfin. unfold rounded6.
  destruct (fixed6_parts x) as (_ & Halli & Hne & _).
  destruct (Float32.sign x).
  - cbn [append parse_fixed]. rewrite Ascii.eqb_refl.
    apply parse_unsigned_fixed_fixed6.
  - cbn [append]. rewrite <- (parse_unsigned_fixed_fixed6 x false).
    destruct (decimal (scaled6 x / 10 ^ 6)) as [|c r] eqn:Hd; [congruence|].
    cbn [append parse_fixed]. cbn [all_chars] in Halli.
    apply andb_true_iff in Halli as [Hc _].
    destruct (Ascii.eqb_spec c "-") as [->|]; [discriminate | reflexivity].
Qed.

Lemma fixed6_chars (x : Z) :
  Float32.is_finite x = true -> all_chars fixed_char (fixed6 x) = true.
Proof.
  intros Hfin. rewrite fixed6_finite by exact Hfin.
  destruct (fixed6_parts x) as (_ & Halli & _ & _ & Hallf & _).
  rewrite !all_chars_append. cbn [all_chars].
  rewrite (all_chars_impl is_digit fixed_char _ is_digit_fixed_char Halli).
  rewrite (all_chars_impl is_digit fixed_char _ is_digit_fixed_char Hallf).
  now destruct (Float32.sign x).
Qed.

Lemma fixed6_fixed_point6 (x : Z) :
  Float32.is_finite x = true -> fixed_point6 (fixed6 x).
Proof.
  intros Hfin. destruct (fixed6_parts x) as (_ & Halli & Hne & _ & Hallf & Hlenf).
  exists (if Float32.sign x then "-" else "")%string,
         (decimal (scaled6 x / 10 ^ 6)), (digits6 (scaled6 x mod 10 ^ 6)).
  split; [now apply fixed6_finite|].
  split; [destruct (Float32.sign x); auto|]. auto.
Qed.

(** ** Reading a literal back *)

Lemma map_option_parse_next (es : list string) (qs : list Q) :
  map_option parse_fixed es = Some qs ->
  map_option parse_next (map (String " ") es) = Some qs.
Proof.
  revert qs. induction es as [|e es IH]; intros qs H; [exact H|].
  cbn [map map_option parse_next] in *. rewrite Ascii.eqb_refl.
  destruct (parse_fixed e) as [q|]; [|discriminate].
  destruct (map_option parse_fixed es) as [qs'|]; [|discriminate].
  now rewrite (IH qs' eq_refl).
Qed.

Lemma map_option_parse_fixed (v : list Z) :
  Forall (fun x => Float32.is_finite x = true) v ->
  map_option parse_fixed (map fixed6 v) = Some (map rounded6 v).
Proof.
  induction 1 as [|x v Hx _ IH]; [reflexivity|].
  cbn [map map_option]. now rewrite parse_fixed_fixed6, IH.
Qed.

Lemma parse_literal_literal (v : list Z) :
  Forall (fun x => Float32.is_finite x = true) v ->
  parse_literal (literal v) = Some (map rounded6 v).
Proof.
  intros Hfin. unfold literal. cbn [append parse_literal].
  rewrite Ascii.eqb_refl, drop_last_append.
  destruct v as [|x v]; [reflexivity|].
  pose proof (Forall_inv Hfin) as Hx. pose proof (Forall_inv_tail Hfin) as Hv.
  cbn [map]. rewrite split_at_concat.
  - rewrite parse_fixed_fixed6 by exact Hx.
    rewrite (map_option_parse_next _ _ (map_option_parse_fixed v Hv)).
    destruct (String.concat ", " (fixed6 x :: map fixed6 v)) as [|c r] eqn:Hc;
      [|reflexivity].
    exfalso. destruct (fixed6_fixed_point6 x Hx)
      as (sgn & ip & fp & Heq & _ & Hne & _).
    assert (Hlen : (0 < String.length (fixed6 x))%nat).
    { rewrite Heq, !length_append. destruct ip; [congruence | cbn; lia]. }
    apply (f_equal String.length) in Hc. cbn [String.concat] in Hc.
    destruct (map fixed6 v); [|rewrite length_append in Hc]; cbn in Hc; lia.
  - change (fixed6 x :: map fixed6 v) with (map fixed6 (x :: v)).
    apply Forall_map. eapply Forall_impl; [|exact Hfin]. cbv beta.
    intros y Hy. apply all_chars_impl with (P := fixed_char).
    + exact fixed_char_not_comma.
    + now apply fixed6_chars.
Qed.

(** C7. For a vector [v] of finite floats, [Vector2String] returns the
    elements between brackets, separated by a comma and a space, each a
    fixed-point decimal with exactly six digits after the point; read
    back as that many comma-separated fixed-point numbers inside
    brackets, the text gives a number within half a millionth of each
    element. *)
Theorem Vector2String_roundtrip (v rest : list Z) :
  Forall (fun x => Float32.is_finite x = true) v ->
  exists s : string,
    Vector2String (v ++ rest) (Z.of_nat (List.length v)) = Returned s /\
    s = ("[" ++ String.concat ", " (map fixed6 v) ++ "]")%string /\
    Forall fixed_point6 (map fixed6 v) /\
    exists qs : list Q,
      parse_literal s = Some qs /\
      List.length qs = List.length v /\
      Forall2 (fun q x => (Qabs (q - Float32.value x) <= 1 # 2000000)%Q) qs v.
Proof.
  intros Hfin. exists (literal v).
  split; [apply Vector2String_literal|]. split; [reflexivity|]. split.
  - apply Forall_map. eapply Forall_impl; [|exact Hfin]. cbv beta.
    intros x Hx. now apply fixed6_fixed_point6.
  - exists (map rounded6 v). split; [now apply parse_literal_literal|].
    split; [apply length_map|].
    clear Hfin. induction v as [|x v IH]; constructor; [|exact IH].
    unfold rounded6, Float32.value. apply scaled6_close.
Qed.

Lemma Vector2String_roundtrip_witness :
  exists s : string,
    Vector2String [1065353216; 3204448256; 1051372203] 3 = Returned s /\
    s = "[1.000000, -0.500000, 0.333333]"%string /\
    exists qs : list Q,
      parse_literal s = Some qs /\
      Forall2 (fun q x => (Qabs (q - Float32.value x) <= 1 # 2000000)%Q) qs
        [1065353216; 3204448256; 1051372203].
Proof.
  destruct (Vector2String_roundtrip [1065353216; 3204448256; 1051372203] [])
    as (s & Hrun & Hs & _ & qs & Hparse & _ & Hclose).
  - repeat constructor.
  - exists s. split; [exact Hrun|]. split; [exact Hs|].
    exists qs. split; [exact Hparse | exact Hclose].
Defined.

(** * Further properties *)

(** ** What the counters count *)

Lemma existsb_firstn_step (T i r target : Z) (rest : list Z) :
  existsb (fun r => r =? target) (firstn (Z.to_nat (T - i)) (r :: rest))
  = if i <? T
    then (r =? target) ||
         existsb (fun r => r =? target) (firstn (Z.to_nat (T - (i + 1))) rest)
    else false.
Proof.
  destruct (Z.ltb_spec i T) as [Hlt|Hge].
  - replace (Z.to_nat (T - i)) with (S (Z.to_nat (T - (i + 1)))) by lia.
    reflexivity.
  - replace (Z.to_nat (T - i)) with 0%nat by lia. reflexivity.
Qed.

(** The loop entered at index [i] bumps the counter of a cutoff exactly
    when the target is among the results that are still below the
    cutoff. *)
Lemma AddQueryResult_loop_top (res : list Z) :
  forall m target i,
    let hit T := existsb (fun r => r =? target) (firstn (Z.to_nat (T - i)) res) in
    AddQueryResult_loop m target res i
    = mkMetric (if hit 1 then SizeT.incr (n_1_ m) else n_1_ m)
               (if hit 10 then SizeT.incr (n_10_ m) else n_10_ m)
               (if hit 100 then SizeT.incr (n_100_ m) else n_100_ m)
               (n_ m).
Proof.
  induction res as [|r rest IH]; intros m target i hit; subst hit; cbv beta.
  - rewrite !firstn_nil. cbn. now destruct m.
  - rewrite !existsb_firstn_step. cbn [AddQueryResult_loop].
    destruct (r =? target) eqn:Hr.
    + cbn [orb]. destruct m as [a b c n]. cbn.
      destruct (i <? 1), (i <? 10), (i <? 100); reflexivity.
    + cbn [orb]. rewrite IH. cbv beta.
      destruct (Z.ltb_spec i 1), (Z.ltb_spec i 10), (Z.ltb_spec i 100);
        try lia; try reflexivity;
        repeat match goal with
          | |- context [Z.to_nat (?T - (i + 1))] =>
              replace (Z.to_nat (T - (i + 1))) with 0%nat by lia
          end; rewrite ?firstn_O; cbn [existsb]; reflexivity.
Qed.

(** X1. Only the first 100 results of a query can count: scoring a
    result list gives the same counters as scoring its first 100
    entries. *)
Theorem AddQueryResult_first_100 (m : Metric) (res gt : list Z) :
  AddQueryResult m res gt = AddQueryResult m (firstn 100 res) gt.
Proof.
  unfold AddQueryResult. destruct (load gt 0) as [target|e]; [|reflexivity].
  cbn [bind]. rewrite !AddQueryResult_loop_top. cbv zeta.
  rewrite !Z.sub_0_r.
  change (Z.to_nat 1) with 1%nat. change (Z.to_nat 10) with 10%nat.
  change (Z.to_nat 100) with 100%nat.
  rewrite !firstn_firstn. reflexivity.
Qed.

Lemma count_top_cons (K : nat) (call : list Z * list Z)
      (calls : list (list Z * list Z)) :
  count_top K (call :: calls)
  = (if in_top K call then 1 else 0) + count_top K calls.
Proof.
  unfold count_top. cbn [filter]. destruct (in_top K call); cbn [List.length]; lia.
Qed.

Lemma count_top_range (K : nat) (calls : list (list Z * list Z)) :
  0 <= count_top K calls <= Z.of_nat (List.length calls).
Proof.
  unfold count_top. pose proof (filter_length_le (in_top K) calls). lia.
Qed.

(** The counters along a sequence of calls, from any accumulator that
    cannot wrap on the way. *)
Lemma record_all_counts (calls : list (list Z * list Z)) :
  forall m,
    0 <= n_1_ m -> 0 <= n_10_ m -> 0 <= n_100_ m -> 0 <= n_ m ->
    n_1_ m + Z.of_nat (List.length calls) < SizeT.modulus ->
    n_10_ m + Z.of_nat (List.length calls) < SizeT.modulus ->
    n_100_ m + Z.of_nat (List.length calls) < SizeT.modulus ->
    n_ m + Z.of_nat (List.length calls) < SizeT.modulus ->
    Forall (fun call => snd call <> []) calls ->
    exists m',
      record_all m calls = Returned m' /\
      n_ m' = n_ m + Z.of_nat (List.length calls) /\
      n_1_ m' = n_1_ m + count_top 1 calls /\
      n_10_ m' = n_10_ m + count_top 10 calls /\
      n_100_ m' = n_100_ m + count_top 100 calls.
Proof.
  induction calls as [|[res gt] rest IH];
    intros m H1 H10 H100 Hn B1 B10 B100 Bn Hgt.
  - exists m. unfold count_top. cbn. repeat split; lia.
  - pose proof (Forall_inv Hgt) as Hne. cbn [snd] in Hne.
    pose proof (Forall_inv_tail Hgt) as Hrest.
    destruct gt as [|target gt']; [congruence|].
    cbn [List.length] in B1, B10, B100, Bn.
    cbn [record_all]. unfold AddQueryResult. rewrite load_0. cbn [bind].
    rewrite AddQueryResult_loop_top. cbv zeta.
    rewrite !Z.sub_0_r. cbn [incr_n_ n_1_ n_10_ n_100_ n_].
    rewrite !count_top_cons. unfold in_top. cbn [snd fst].
    change (Z.to_nat 1) with 1%nat. change (Z.to_nat 10) with 10%nat.
    change (Z.to_nat 100) with 100%nat.
    set (h1 := existsb (fun r => r =? target) (firstn 1 res)).
    set (h10 := existsb (fun r => r =? target) (firstn 10 res)).
    set (h100 := existsb (fun r => r =? target) (firstn 100 res)).
    pose proof (count_top_range 1 rest). pose proof (count_top_range 10 rest).
    pose proof (count_top_range 100 rest).
    match goal with
    | |- exists m', record_all ?m1 rest = _ /\ _ =>
        destruct (IH m1) as (m' & Hrun & Hcn & Hc1 & Hc10 & Hc100)
    end; cbn [n_1_ n_10_ n_100_ n_];
      try (rewrite ?SizeT_incr_small by lia; destruct h1, h10, h100; lia);
      try exact Hrest.
    exists m'. split; [exact Hrun|].
    cbn [n_1_ n_10_ n_100_ n_] in Hcn, Hc1, Hc10, Hc100.
    rewrite ?SizeT_incr_small in Hcn, Hc1, Hc10, Hc100 by lia.
    cbn [List.length]. repeat split; destruct h1, h10, h100; lia.
Qed.

(** X2. After fewer than [2^64] calls on a fresh accumulator, [n_] is the
    number of calls and [n_1_], [n_10_] and [n_100_] are the numbers of
    calls whose target, the first entry of the ground-truth row, is among
    the first 1, 10 and 100 results. *)
Theorem Metric_counts_top (calls : list (list Z * list Z)) :
  Forall (fun call => snd call <> []) calls ->
  Z.of_nat (List.length calls) < SizeT.modulus ->
  exists m,
    record_all Metric_default calls = Returned m /\
    n_ m = Z.of_nat (List.length calls) /\
    n_1_ m = count_top 1 calls /\
    n_10_ m = count_top 10 calls /\
    n_100_ m = count_top 100 calls.
Proof.
  intros Hgt Hlen.
  destruct (record_all_counts calls Metric_default) as (m & Hrun & H);
    cbn [Metric_default n_1_ n_10_ n_100_ n_]; try lia; try exact Hgt.
  exists m. split; [exact Hrun|].
  cbn [Metric_default n_1_ n_10_ n_100_ n_] in H. exact H.
Qed.

Lemma Metric_counts_top_witness :
  exists m,
    record_all Metric_default
      [([7; 42; 9], [42; 7; 3]); ([], [42]); ([5], [5; 6]);
       ([1; 2; 3; 4; 5; 6; 7; 8; 9; 10; 11], [11])] = Returned m /\
    n_ m = 4 /\ n_1_ m = 1 /\ n_10_ m = 2 /\ n_100_ m = 3.
Proof.
  apply (Metric_counts_top
           [([7; 42; 9], [42; 7; 3]); ([], [42]); ([5], [5; 6]);
            ([1; 2; 3; 4; 5; 6; 7; 8; 9; 10; 11], [11])]).
  - repeat constructor; discriminate.
  - reflexivity.
Defined.

Lemma Show_after_calls_aux (m : Metric) (k : Z) :
  0 <= n_1_ m -> counters_ordered m -> n_ m = k -> 0 < k ->
  Show m = Returned (FQuot (n_1_ m) k, FQuot (n_10_ m) k, FQuot (n_100_ m) k).
Proof.
  intros _ _ Hn Hk. unfold Show, fdiv. rewrite Hn.
  replace (k =? 0) with false by (symmetry; apply Z.eqb_neq; lia).
  reflexivity.
Qed.

(** X3. After at least one and fewer than [2^64] calls, [Show] divides
    by the number of calls: the three recalls are proper quotients
    [hits / calls] with [0 <= hits <= calls], growing with the cutoff, and
    none is a NaN or an infinity. *)
Theorem Show_after_calls (calls : list (list Z * list Z)) :
  Forall (fun call => snd call <> []) calls ->
  0 < Z.of_nat (List.length calls) < SizeT.modulus ->
  exists m a1 a10 a100,
    record_all Metric_default calls = Returned m /\
    Show m = Returned (FQuot a1 (Z.of_nat (List.length calls)),
                       FQuot a10 (Z.of_nat (List.length calls)),
                       FQuot a100 (Z.of_nat (List.length calls))) /\
    0 <= a1 /\ a1 <= a10 /\ a10 <= a100 /\ a100 <= Z.of_nat (List.length calls).
Proof.
  intros Hgt Hlen.
  destruct (record_all_invariant calls Metric_default 0)
    as (m & Hrun & H0 & Hord & Hn).
  - cbn. lia.
  - unfold counters_ordered. cbn. lia.
  - reflexivity.
  - lia.
  - exact Hgt.
  - exists m, (n_1_ m), (n_10_ m), (n_100_ m). split; [exact Hrun|]. split.
    + apply Show_after_calls_aux; try assumption; lia.
    + destruct Hord as (Ha & Hb & Hc). rewrite Hn in Hc. lia.
Qed.

Lemma Show_after_calls_witness :
  exists m a1 a10 a100,
    record_all Metric_default [([7; 42; 9], [42; 7; 3]); ([5], [5; 6])]
    = Returned m /\
    Show m = Returned (FQuot a1 2, FQuot a10 2, FQuot a100 2) /\
    0 <= a1 /\ a1 <= a10 /\ a10 <= a100 /\ a100 <= 2.
Proof.
  apply (Show_after_calls [([7; 42; 9], [42; 7; 3]); ([5], [5; 6])]).
  - repeat constructor; discriminate.
  - split; reflexivity.
Defined.

(** ** FvecsRead on any file *)

Lemma length_memmove (A : Type) (x : list A) (dst src len : nat) :
  (dst + len <= List.length x)%nat ->
  (src + len <= List.length x)%nat ->
  List.length (memmove x dst src len) = List.length x.
Proof.
  intros Hdst Hsrc. unfold memmove.
  rewrite !length_app, !length_firstn, !length_skipn. lia.
Qed.

(** The row shift keeps the array as long as it was. *)
Lemma length_FvecsRead_shift (A : Type) (d : nat) (todo : nat) :
  forall (x : list A) (i : nat),
    ((i + todo) * (d + 1) <= List.length x)%nat ->
    List.length (FvecsRead_shift x d i todo) = List.length x.
Proof.
  induction todo as [|k IH]; intros x i Hlen; [reflexivity|].
  cbn [FvecsRead_shift].
  assert (Hm : List.length (memmove x (i * d) (1 + i * (d + 1)) d) = List.length x)
    by (apply length_memmove; nia).
  rewrite IH; [exact Hm|]. rewrite Hm. nia.
Qed.

(** What [FvecsRead] returns on a file it accepts. *)
Lemma FvecsRead_accepted (fs : filesystem) (fname : string)
      (bytes : list byte) (d : Z) :
  fs fname = Some bytes ->
  fread_int bytes = Returned d ->
  0 < d < 1000000 ->
  Z.of_nat (List.length bytes) mod ((d + 1) * 4) = 0 ->
  let n := Z.of_nat (List.length bytes) / ((d + 1) * 4) in
  FvecsRead fs fname
  = Returned (d, n,
              FvecsRead_shift (fread_floats (Z.to_nat (n * (d + 1))) bytes)
                (Z.to_nat d) 0 (Z.to_nat n)) /\
  Z.of_nat (List.length bytes) = 4 * (n * (d + 1)) /\
  1 <= n /\
  List.length (fread_floats (Z.to_nat (n * (d + 1))) bytes) = Z.to_nat (n * (d + 1)).
Proof.
  intros Hfs Hd Hrange Hmod n.
  assert (Hsz : Z.of_nat (List.length bytes) = (d + 1) * 4 * n)
    by (apply Z.div_exact; lia).
  assert (Hn0 : 0 <= n) by (apply Z.div_pos; lia).
  assert (Hlen : List.length (fread_floats (Z.to_nat (n * (d + 1))) bytes)
                 = Z.to_nat (n * (d + 1)))
    by (apply length_fread_floats; lia).
  assert (H4 : (4 <= List.length bytes)%nat).
  { destruct bytes as [|b0 [|b1 [|b2 [|b3 rest]]]]; try discriminate.
    cbn [List.length]. lia. }
  split; [|split; [lia | split; [nia | exact Hlen]]].
  unfold FvecsRead. rewrite Hfs, Hd. cbn [bind].
  rewrite dimension_accepted by exact Hrange. cbn [assert bind].
  rewrite Hmod. cbn [Z.eqb assert bind]. fold n.
  rewrite Hlen, Z2Nat.id by nia. rewrite Z.eqb_refl. reflexivity.
Qed.

(** Every way [FvecsRead] can end. *)
Lemma FvecsRead_outcomes (fs : filesystem) (fname : string) :
  FvecsRead fs fname = Raised (Aborted ("could not open " ++ fname)) /\
    fs fname = None \/
  FvecsRead fs fname = Raised Indeterminate /\
    (exists bytes, fs fname = Some bytes /\ (List.length bytes < 4)%nat) \/
  FvecsRead fs fname = Raised (AssertionFailed "unreasonable dimension") /\
    (exists bytes d, fs fname = Some bytes /\ fread_int bytes = Returned d /\
                     ~ 0 < d < 1000000) \/
  FvecsRead fs fname = Raised (AssertionFailed "weird file size") /\
    (exists bytes d, fs fname = Some bytes /\ fread_int bytes = Returned d /\
                     0 < d < 1000000 /\
                     Z.of_nat (List.length bytes) mod ((d + 1) * 4) <> 0) \/
  (exists bytes d, fs fname = Some bytes /\ fread_int bytes = Returned d /\
                   0 < d < 1000000 /\
                   Z.of_nat (List.length bytes) mod ((d + 1) * 4) = 0).
Proof.
  destruct (fs fname) as [bytes|] eqn:Hfs.
  2:{ left. split; [|reflexivity]. unfold FvecsRead. now rewrite Hfs. }
  right. destruct (fread_int bytes) as [d|e] eqn:Hd.
  2:{ left. assert (He : e = Indeterminate /\ (List.length bytes < 4)%nat).
      { destruct bytes as [|b0 [|b1 [|b2 [|b3 rest]]]]; cbn in Hd;
          try discriminate; injection Hd as <-; cbn; split; (reflexivity || lia). }
      destruct He as [-> Hlen]. split; [|now exists bytes].
      unfold FvecsRead. now rewrite Hfs, Hd. }
  right. destruct (Z.ltb_spec 0 d) as [H0|H0];
    [destruct (Z.ltb_spec d 1000000) as [H1|H1]|].
  - right.
    destruct (Z.eq_dec (Z.of_nat (List.length bytes) mod ((d + 1) * 4)) 0)
      as [Hmod|Hmod].
    + right. exists bytes, d. repeat split; try assumption; lia.
    + left. split; [|exists bytes, d; repeat split; try assumption; lia].
      unfold FvecsRead. rewrite Hfs, Hd. cbn [bind].
      rewrite dimension_accepted by lia. cbn [assert bind].
      apply Z.eqb_neq in Hmod. now rewrite Hmod.
  - left. split; [|exists bytes, d; repeat split; try assumption; lia].
    unfold FvecsRead. rewrite Hfs, Hd. cbn [bind].
    replace ((0 <? d) && (d <? 1000000)) with false; [reflexivity|].
    symmetry. apply andb_false_iff. right. apply Z.ltb_ge. lia.
  - left. split; [|exists bytes, d; repeat split; try assumption; lia].
    unfold FvecsRead. rewrite Hfs, Hd. cbn [bind].
    replace ((0 <? d) && (d <? 1000000)) with false; [reflexivity|].
    symmetry. apply andb_false_iff. left. apply Z.ltb_ge. lia.
Qed.

(** X4. Whenever [FvecsRead] returns [(d, n, x)] on a file of at least
    four bytes: [d] is the first integer of the file and lies strictly
    between 0 and 1000000, there is at least one record, the file is
    exactly [n] records of [d + 1] four-byte elements long, and the array
    returned has the [n * (d + 1)] cells that were allocated. *)
Theorem FvecsRead_returns_shape (fs : filesystem) (fname : string)
        (bytes : list byte) (d n : Z) (x : list Z) :
  fs fname = Some bytes ->
  (4 <= List.length bytes)%nat ->
  FvecsRead fs fname = Returned (d, n, x) ->
  fread_int bytes = Returned d /\
  0 < d < 1000000 /\
  1 <= n /\
  Z.of_nat (List.length bytes) = 4 * (n * (d + 1)) /\
  Z.of_nat (List.length x) = n * (d + 1).
Proof.
  intros Hfs Hlong Hrun.
  destruct (FvecsRead_outcomes fs fname)
    as [[H _] | [[H _] | [[H _] | [[H _] | (bytes' & d' & Hfs' & Hd & Hrange & Hmod)]]]];
    try congruence.
  assert (bytes' = bytes) as -> by congruence.
  destruct (FvecsRead_accepted fs fname bytes d' Hfs Hd Hrange Hmod)
    as (Hret & Hsz & Hn & Hlen).
  rewrite Hret in Hrun. injection Hrun as <- <- <-.
  repeat split; try assumption; try lia.
  rewrite length_FvecsRead_shift; rewrite Hlen; nia.
Qed.

Lemma FvecsRead_returns_shape_witness :
  fread_int (fvecs_file 2 [[7; 8]; [9; 10]]) = Returned 2 /\
  0 < 2 < 1000000 /\ 1 <= 2 /\
  Z.of_nat (List.length (fvecs_file 2 [[7; 8]; [9; 10]])) = 4 * (2 * (2 + 1)) /\
  Z.of_nat (List.length [7; 8; 9; 10; 9; 10]) = 2 * (2 + 1).
Proof.
  apply (FvecsRead_returns_shape
           (fun _ => Some (fvecs_file 2 [[7; 8]; [9; 10]])) "q.fvecs"
           (fvecs_file 2 [[7; 8]; [9; 10]]) 2 2 [7; 8; 9; 10; 9; 10]).
  - reflexivity.
  - cbn. lia.
  - reflexivity.
Defined.

(** X5. [FvecsRead] ends in one of five ways only: it returns, or it
    aborts because the file cannot be opened, or it uses a dimension it
    could not read (a file shorter than four bytes), or one of the first
    two assertions fails.  Once the size assertion has passed the whole
    file is read: the assertion on the number of elements read never
    fails. *)
Theorem FvecsRead_failures (fs : filesystem) (fname : string) (e : error) :
  FvecsRead fs fname = Raised e ->
  e = Aborted ("could not open " ++ fname) \/
  e = Indeterminate \/
  e = AssertionFailed "unreasonable dimension" \/
  e = AssertionFailed "weird file size".
Proof.
  intros Hrun.
  destruct (FvecsRead_outcomes fs fname)
    as [[H _] | [[H _] | [[H _] | [[H _] | (bytes & d & Hfs & Hd & Hrange & Hmod)]]]];
    try (rewrite H in Hrun; injection Hrun as <-; auto).
  destruct (FvecsRead_accepted fs fname bytes d Hfs Hd Hrange Hmod) as (Hret & _).
  congruence.
Qed.

Lemma FvecsRead_failures_witness :
  AssertionFailed "weird file size" = Aborted ("could not open " ++ "b.fvecs") \/
  AssertionFailed "weird file size" = Indeterminate \/
  AssertionFailed "weird file size" = AssertionFailed "unreasonable dimension" \/
  AssertionFailed "weird file size" = AssertionFailed "weird file size".
Proof.
  apply (FvecsRead_failures (fun _ => Some [x01; x00; x00; x00; x07]) "b.fvecs").
  reflexivity.
Defined.

Lemma nth_error_fread_floats (count : nat) :
  forall (bytes : list byte) (k : nat),
    (k < count)%nat ->
    (4 * count <= List.length bytes)%nat ->
    nth_error (fread_floats count bytes) k = word_at bytes k.
Proof.
  induction count as [|c IH]; intros bytes k Hk Hlen; [lia|].
  destruct bytes as [|b0 [|b1 [|b2 [|b3 rest]]]]; cbn [List.length] in Hlen; try lia.
  cbn [fread_floats]. destruct k as [|k].
  - reflexivity.
  - cbn [nth_error]. rewrite IH by lia. unfold word_at.
    replace (4 * S k)%nat with (S (S (S (S (4 * k))))) by lia. reflexivity.
Qed.

(** An array of [n * (d + 1)] cells is [n] rows of one header cell and
    [d] payload cells. *)
Lemma rows_of_cells (A : Type) (d n : nat) :
  forall x : list A,
    List.length x = (n * (d + 1))%nat ->
    exists rows : list (A * list A),
      List.length rows = n /\
      Forall (fun hr => List.length (snd hr) = d) rows /\
      x = flat_map (fun hr => fst hr :: snd hr) rows.
Proof.
  induction n as [|n IH]; intros x Hlen.
  - exists []. destruct x; [auto | discriminate].
  - destruct x as [|h t]; [cbn in Hlen; lia|]. cbn [List.length] in Hlen.
    destruct (IH (skipn d t)) as (rows & Hn & Hrows & Hx).
    { rewrite length_skipn. cbn in Hlen. lia. }
    exists ((h, firstn d t) :: rows). split; [cbn; lia|]. split.
    + constructor; [|exact Hrows]. cbn [snd]. rewrite length_firstn.
      cbn in Hlen. lia.
    + cbn [flat_map fst snd app]. rewrite <- Hx, firstn_skipn. reflexivity.
Qed.

(** After the shift, cell [i * d + j] holds what cell
    [i * (d + 1) + 1 + j] held before. *)
Lemma nth_error_FvecsRead_shift (A : Type) (d n : nat) (x : list A) (i j : nat) :
  List.length x = (n * (d + 1))%nat ->
  (i < n)%nat -> (j < d)%nat ->
  nth_error (FvecsRead_shift x d 0 n) (i * d + j)
  = nth_error x (i * (d + 1) + 1 + j).
Proof.
  intros Hlen Hi Hj.
  destruct (rows_of_cells A d n x Hlen) as (rows & Hn & Hrows & ->).
  destruct (FvecsRead_shift_rows A d rows [] [] 0 eq_refl eq_refl Hrows)
    as (junk & _ & Hshift).
  cbn [app] in Hshift. rewrite <- Hn, Hshift.
  rewrite (nth_error_concat_rows A d) by (try apply Forall_map; assumption).
  rewrite flat_map_concat_map.
  rewrite <- (app_nil_r (List.concat (map (fun hr => fst hr :: snd hr) rows))).
  replace (i * (d + 1) + 1 + j)%nat with (i * (d + 1) + (1 + j))%nat by lia.
  rewrite (nth_error_concat_rows A (d + 1)).
  - rewrite !nth_error_map.
    destruct (nth_error rows i) as [[h r]|] eqn:Hr; [reflexivity|].
    apply nth_error_None in Hr. lia.
  - apply Forall_map. eapply Forall_impl; [|exact Hrows]. cbv beta.
    intros [h r] Hr. cbn [fst snd List.length] in *. lia.
  - lia.
Qed.

(** X6. On any file it accepts, [FvecsRead] returns an array whose
    element [[i][j]] is the 32-bit value stored in the four bytes at byte
    offset [4 * (i * (d + 1) + 1 + j)] of the file: the payload is copied
    bit for bit and the first cell of every record is skipped. *)
Theorem FvecsRead_elements (fs : filesystem) (fname : string)
        (bytes : list byte) (d n : Z) (x : list Z) :
  fs fname = Some bytes ->
  FvecsRead fs fname = Returned (d, n, x) ->
  forall i j, 0 <= i < n -> 0 <= j < d ->
    exists w,
      word_at bytes (Z.to_nat (i * (d + 1) + 1 + j)) = Some w /\
      at_ij x d i j = Some w.
Proof.
  intros Hfs Hrun i j Hi Hj.
  destruct (FvecsRead_outcomes fs fname)
    as [[H _] | [[H _] | [[H _] | [[H _] | (bytes' & d' & Hfs' & Hd & Hrange & Hmod)]]]];
    try congruence.
  assert (bytes' = bytes) as -> by congruence.
  destruct (FvecsRead_accepted fs fname bytes d' Hfs Hd Hrange Hmod)
    as (Hret & Hsz & Hn & Hlen).
  rewrite Hret in Hrun. injection Hrun as <- <- <-.
  set (n := Z.of_nat (List.length bytes) / ((d' + 1) * 4)) in *.
  set (x0 := fread_floats (Z.to_nat (n * (d' + 1))) bytes) in *.
  assert (Hx0 : List.length x0 = (Z.to_nat n * (Z.to_nat d' + 1))%nat) by nia.
  unfold at_ij.
  replace (Z.to_nat (i * d' + j))
    with (Z.to_nat i * Z.to_nat d' + Z.to_nat j)%nat by nia.
  rewrite (nth_error_FvecsRead_shift Z (Z.to_nat d') (Z.to_nat n) x0) by lia.
  replace (Z.to_nat i * (Z.to_nat d' + 1) + 1 + Z.to_nat j)%nat
    with (Z.to_nat (i * (d' + 1) + 1 + j)) by nia.
  unfold x0. rewrite nth_error_fread_floats by nia.
  destruct (word_at bytes (Z.to_nat (i * (d' + 1) + 1 + j))) as [w|] eqn:Hw.
  - exists w. auto.
  - exfalso. rewrite <- (nth_error_fread_floats (Z.to_nat (n * (d' + 1)))) in Hw
      by nia.
    apply nth_error_None in Hw. fold x0 in Hw. nia.
Qed.

Lemma FvecsRead_elements_witness :
  exists w,
    word_at [x02; x00; x00; x00; x07; x00; x00; x00; x00; x01; x00; x00;
             x02; x00; x00; x00; x09; x00; x00; x00; xff; xff; xff; xff]
      (Z.to_nat (1 * (2 + 1) + 1 + 1)) = Some w /\
    at_ij [7; 256; 9; 4294967295; 9; 4294967295] 2 1 1 = Some w.
Proof.
  apply (FvecsRead_elements
           (fun _ => Some [x02; x00; x00; x00; x07; x00; x00; x00; x00; x01; x00; x00;
                           x02; x00; x00; x00; x09; x00; x00; x00; xff; xff; xff; xff])
           "b.fvecs" _ 2 2 [7; 256; 9; 4294967295; 9; 4294967295] eq_refl eq_refl);
    lia.
Defined.

(** X7. Only the count prefix of the first record is looked at.  A file
    whose later records carry any other prefix is read like one whose
    prefixes all agree: the first prefix gives [d], the size gives [n],
    and the payloads come out packed, row after row. *)
Theorem FvecsRead_later_prefixes_unchecked (fs : filesystem) (fname : string)
        (d h0 : Z) (r0 : list Z) (rows : list (Z * list Z)) :
  fs fname = Some (fvecs_file_with_prefixes ((h0, r0) :: rows)) ->
  Int32.of_bits h0 = d ->
  0 < d < 1000000 ->
  Forall (fun hr => is_word (fst hr) /\ Forall is_word (snd hr) /\
                    Z.of_nat (List.length (snd hr)) = d) ((h0, r0) :: rows) ->
  exists x,
    FvecsRead fs fname = Returned (d, Z.of_nat (S (List.length rows)), x) /\
    firstn (Z.to_nat (Z.of_nat (S (List.length rows)) * d)) x
    = List.concat (r0 :: map snd rows).
Proof.
  intros Hfs Hh0 Hd Hrows.
  destruct (FvecsRead_rows fs fname d h0 r0 rows) as (junk & _ & Hrun);
    try assumption.
  - apply Forall_flat_map. eapply Forall_impl; [|exact Hrows]. cbv beta.
    intros [h r] (Hh & Hr & _). constructor; assumption.
  - eapply Forall_impl; [|exact Hrows]. cbv beta.
    intros [h r] (_ & _ & Hlen). cbn [snd] in *. lia.
  - cbn [List.length map snd] in Hrun. eexists. split; [exact Hrun|].
    replace (Z.to_nat (Z.of_nat (S (List.length rows)) * d))
      with (List.length (List.concat (r0 :: map snd rows))).
    + apply firstn_length_app.
    + change (r0 :: map snd rows) with (map snd ((h0, r0) :: rows)).
      change (S (List.length rows)) with (List.length ((h0, r0) :: rows)).
      clear - Hrows Hd. induction ((h0, r0) :: rows) as [|[h r] l IH]; [reflexivity|].
      pose proof (Forall_inv Hrows) as (_ & _ & Hr). cbn [snd] in Hr.
      cbn [map snd List.concat List.length]. rewrite length_app.
      rewrite (IH (Forall_inv_tail Hrows)). nia.
Qed.

Lemma FvecsRead_later_prefixes_unchecked_witness :
  exists x,
    FvecsRead (fun _ => Some (fvecs_file_with_prefixes [(2, [7; 8]); (99, [9; 10])]))
      "b.fvecs" = Returned (2, 2, x) /\
    firstn 4 x = [7; 8; 9; 10].
Proof.
  apply (FvecsRead_later_prefixes_unchecked
           (fun _ => Some (fvecs_file_with_prefixes [(2, [7; 8]); (99, [9; 10])]))
           "b.fvecs" 2 2 [7; 8] [(99, [9; 10])] eq_refl eq_refl).
  - lia.
  - repeat constructor; unfold is_word; cbn; lia.
Defined.

(** ** Vector2String on any pointer *)

(** Asked for more rounds than there are elements behind the pointer,
    the loop reads past the end. *)
Lemma Vector2String_loop_past_end (v : list Z) :
  forall (pre : list Z) (n : Z) (todo : nat) (ss : string),
    (List.length v < todo)%nat ->
    Vector2String_loop (pre ++ v) n (Z.of_nat (List.length pre)) todo ss
    = Raised OutOfBounds.
Proof.
  induction v as [|x v IH]; intros pre n todo ss Htodo;
    (destruct todo as [|k]; [cbn in Htodo; lia|]); cbn [Vector2String_loop].
  - rewrite app_nil_r. unfold load.
    destruct (Z.ltb_spec (Z.of_nat (List.length pre)) 0); [reflexivity|].
    rewrite Nat2Z.id.
    replace (nth_error pre (List.length pre)) with (@None Z)
      by (symmetry; apply nth_error_None; lia).
    reflexivity.
  - rewrite load_app. cbn [bind].
    replace (Z.of_nat (List.length pre) + 1)
      with (Z.of_nat (List.length (pre ++ [x])))
      by (rewrite length_app; cbn [List.length]; lia).
    replace (pre ++ x :: v) with ((pre ++ [x]) ++ v)
      by (rewrite <- app_assoc; reflexivity).
    apply IH. cbn [List.length] in Htodo. lia.
Qed.

(** X8. [Vector2String(p, n)] reads exactly the first [n] elements
    behind [p]: with at least [n] elements there it returns their
    literal, which is ["[]"] when [n] is zero or negative, and with fewer
    it reads past the end of the array. *)
Theorem Vector2String_reads_n (p : list Z) (n : Z) :
  (n <= Z.of_nat (List.length p) ->
     Vector2String p n = Returned (literal (firstn (Z.to_nat n) p))) /\
  (n <= 0 -> Vector2String p n = Returned "[]"%string) /\
  (Z.of_nat (List.length p) < n -> Vector2String p n = Raised OutOfBounds).
Proof.
  assert (Hneg : n <= 0 -> Vector2String p n = Returned "[]"%string).
  { intros Hn. unfold Vector2String.
    replace (Z.to_nat n) with 0%nat by lia. reflexivity. }
  split; [|split; [exact Hneg|]].
  - intros Hn. destruct (Z.leb_spec n 0) as [H0|H0].
    + rewrite Hneg by exact H0. replace (Z.to_nat n) with 0%nat by lia.
      reflexivity.
    + rewrite <- (firstn_skipn (Z.to_nat n) p) at 1.
      apply Vector2String_literal_n. rewrite length_firstn. lia.
  - intros Hn. unfold Vector2String.
    pose proof (Vector2String_loop_past_end p [] n (Z.to_nat n) "[") as H.
    cbn [app List.length Z.of_nat] in H. rewrite H by lia. reflexivity.
Qed.

Lemma Vector2String_reads_n_witness :
  Vector2String [1065353216; 1073741824; 7] 2
  = Returned "[1.000000, 2.000000]"%string /\
  Vector2String [1065353216] (-3) = Returned "[]"%string /\
  Vector2String [1065353216; 1073741824] 3 = Raised OutOfBounds.
Proof.
  split; [|split].
  - apply (Vector2String_reads_n [1065353216; 1073741824; 7] 2). cbn. lia.
  - apply (Vector2String_reads_n [1065353216] (-3)). lia.
  - apply (Vector2String_reads_n [1065353216; 1073741824] 3). cbn. lia.
Defined.

Lemma not_fixed_point6_without_point (s : string) :
  all_chars (not_char ".") s = true -> ~ fixed_point6 s.
Proof.
  intros Hs (sgn & ip & fp & -> & _).
  rewrite !all_chars_append in Hs. cbn [all_chars] in Hs.
  change (not_char "." ".") with false in Hs.
  rewrite andb_false_l, !andb_false_r in Hs. discriminate.
Qed.

(** X9. [Vector2String] formats whatever bit pattern it is given: an
    element that is an infinity or a NaN comes out as [inf], [-inf],
    [nan] or [-nan], so the text of a vector with such an element is
    returned all the same and is not a list of fixed-point numbers. *)
Theorem Vector2String_non_finite (v rest : list Z) (x : Z) :
  In x v ->
  Float32.is_finite x = false ->
  (fixed6 x = "inf" \/ fixed6 x = "-inf" \/ fixed6 x = "nan" \/ fixed6 x = "-nan")%string /\
  Vector2String (v ++ rest) (Z.of_nat (List.length v)) = Returned (literal v) /\
  ~ Forall fixed_point6 (map fixed6 v).
Proof.
  intros Hin Hfin.
  assert (Hx : (fixed6 x = "inf" \/ fixed6 x = "-inf" \/
                fixed6 x = "nan" \/ fixed6 x = "-nan")%string).
  { unfold fixed6. rewrite Hfin.
    destruct (Float32.sign x), (Float32.frac x =? 0); cbn; auto. }
  split; [exact Hx|]. split; [apply Vector2String_literal|].
  intros Hall. rewrite Forall_forall in Hall.
  specialize (Hall (fixed6 x) (in_map fixed6 v x Hin)).
  revert Hall. apply not_fixed_point6_without_point.
  destruct Hx as [-> | [-> | [-> | ->]]]; reflexivity.
Qed.

Lemma Vector2String_non_finite_witness :
  Vector2String [1065353216; 2139095040] 2 = Returned "[1.000000, inf]"%string.
Proof.
  destruct (Vector2String_non_finite [1065353216; 2139095040] [] 2139095040)
    as (_ & Hrun & _).
  - right. left. reflexivity.
  - reflexivity.
  - exact Hrun.
Defined.

(** ** Identifiers written and read back *)

Lemma stoi_digit_first (c : ascii) (r : string) :
  is_digit c = true ->
  stoi (String c r)
  = let v := digits_value (take_digits (String c r)) in
    if (- Int32.half <=? v) && (v <? Int32.half) then Returned v
    else Raised (Thrown "std::out_of_range").
Proof.
  intros Hc.
  destruct c as [[] [] [] [] [] [] [] []];
    try (vm_compute in Hc; discriminate Hc); reflexivity.
Qed.

(** X10. The identifier [InsertIndexVectorData] writes with
    [std::to_string] is read back by [std::stoi] in [DoANNQuery] as the
    same number as long as it is below [2^31]; from [2^31] on, [stoi]
    throws [std::out_of_range]. *)
Theorem stoi_to_string (i : Z) :
  0 <= i ->
  stoi (to_string i)
  = if i <? 2 ^ 31 then Returned i else Raised (Thrown "std::out_of_range").
Proof.
  intros Hi. unfold to_string.
  pose proof (length_decimal_pos i) as Hlen.
  pose proof (decimal_digits i Hi) as Hall.
  pose proof (digits_value_decimal i "" Hi eq_refl) as Hval.
  rewrite append_nil_r in Hval.
  destruct (decimal i) as [|c r] eqn:Hdec; [cbn in Hlen; lia|].
  cbn [all_chars] in Hall. apply andb_true_iff in Hall as [Hc _].
  rewrite stoi_digit_first by exact Hc. cbv zeta. rewrite Hval.
  assert (Hlo : (- Int32.half <=? i) = true)
    by (apply Z.leb_le; unfold Int32.half; pow2; lia).
  rewrite Hlo. cbn [andb]. reflexivity.
Qed.

Lemma stoi_to_string_witness :
  stoi (to_string 999999) = Returned 999999 /\
  stoi (to_string 2147483648) = Raised (Thrown "std::out_of_range").
Proof.
  split.
  - apply (stoi_to_string 999999). lia.
  - apply (stoi_to_string 2147483648). lia.
Defined.

(** ** The ground-truth copy of main *)

Lemma copy_ints_from (todo : nat) :
  forall (pre v : list Z),
    copy_ints (pre ++ v) (Z.of_nat (List.length pre)) todo
    = if (todo <=? List.length v)%nat then Returned (firstn todo v)
      else Raised OutOfBounds.
Proof.
  induction todo as [|k IH]; intros pre v; [reflexivity|].
  cbn [copy_ints]. destruct v as [|x v].
  - rewrite app_nil_r. unfold load.
    destruct (Z.ltb_spec (Z.of_nat (List.length pre)) 0); [reflexivity|].
    rewrite Nat2Z.id.
    replace (nth_error pre (List.length pre)) with (@None Z)
      by (symmetry; apply nth_error_None; lia).
    reflexivity.
  - rewrite load_app. cbn [bind].
    replace (Z.of_nat (List.length pre) + 1)
      with (Z.of_nat (List.length (pre ++ [x])))
      by (rewrite length_app; cbn [List.length]; lia).
    replace (pre ++ x :: v) with ((pre ++ [x]) ++ v)
      by (rewrite <- app_assoc; reflexivity).
    rewrite IH. cbn [List.length Nat.leb firstn].
    destruct (k <=? List.length v)%nat; reflexivity.
Qed.

(** X11. The loop [gt[i] = gt_int[i]] of [main], run [count] times from
    index 0, yields the first [count] entries of [gt_int] when there are
    that many, and reads past the end of [gt_int] otherwise. *)
Theorem copy_ints_firstn (gt_int : list Z) (count : nat) :
  ((count <= List.length gt_int)%nat ->
   copy_ints gt_int 0 count = Returned (firstn count gt_int)) /\
  ((List.length gt_int < count)%nat ->
   copy_ints gt_int 0 count = Raised OutOfBounds).
Proof.
  pose proof (copy_ints_from count [] gt_int) as H.
  cbn [app List.length Z.of_nat] in H. rewrite H. split; intros Hc.
  - apply Nat.leb_le in Hc. now rewrite Hc.
  - apply Nat.leb_gt in Hc. now rewrite Hc.
Qed.

Lemma copy_ints_firstn_witness :
  copy_ints [5; 6; 7] 0 2 = Returned [5; 6] /\
  copy_ints [5; 6; 7] 0 4 = Raised OutOfBounds.
Proof.
  split.
  - apply (copy_ints_firstn [5; 6; 7] 2). cbn. lia.
  - apply (copy_ints_firstn [5; 6; 7] 4). cbn. lia.
Defined.

(** ** Parsing the answers *)

(** X12. [id_lst] is built from the first cell of every row the writer
    holds, and from nothing else: the loop returns a list of identifiers
    exactly when every row has a first cell that [std::stoi] parses, and
    then the identifiers are those numbers, row by row. *)
Theorem id_lst_of_first_cells (res : list (list string)) (ids : list Z) :
  id_lst_of res = Returned ids <->
  Forall2 (fun lines id =>
             exists cell more, lines = cell :: more /\ stoi cell = Returned id)
          res ids.
Proof.
  revert ids. induction res as [|lines res IH]; intros ids.
  - cbn. split.
    + intros H. injection H as <-. constructor.
    + intros H. inversion H. reflexivity.
  - cbn [id_lst_of]. rewrite load_0. split.
    + intros H. destruct lines as [|cell more]; [discriminate|]. cbn [bind] in H.
      destruct (stoi cell) as [id|e] eqn:Hcell; [|discriminate]. cbn [bind] in H.
      destruct (id_lst_of res) as [ids'|e] eqn:Hres; [|discriminate].
      cbn [bind] in H. injection H as <-.
      constructor; [now exists cell, more | now apply IH].
    + intros H. inversion H as [|? id ? ids' (cell & more & -> & Hcell) Hrest]; subst.
      cbn [bind]. rewrite Hcell. cbn [bind].
      apply IH in Hrest. rewrite Hrest. reflexivity.
Qed.

(** ** The query loop *)

Lemma DoANNQuery_loop_with_status (world : Type)
      (ExecuteSql : string -> writer_kind -> world -> bool * world)
      (values_ : world -> list (list string)) (b : bool)
      (p gt : list Z) (todo : nat) :
  forall (i : Z) (st : state world) (metric : Metric),
    DoANNQuery_loop world (with_status b ExecuteSql) values_ p gt i todo st metric
    = DoANNQuery_loop world ExecuteSql values_ p gt i todo st metric.
Proof.
  induction todo as [|k IH]; intros i st metric; [reflexivity|].
  cbn [DoANNQuery_loop].
  destruct (Vector2String (advance p (128 * i)) 128) as [vector|e]; [|reflexivity].
  cbn [bind]. unfold run_sql, with_status.
  destruct (ExecuteSql (select_sql ++ vector ++ " <-> v1 LIMIT 100;")%string
              StringVectorWriter (bustub st)) as [status w].
  cbn [snd bustub].
  destruct (id_lst_of (values_ w)) as [id_lst|e]; [|reflexivity]. cbn [bind].
  destruct (AddQueryResult metric id_lst (DoANNQuery_gt_row gt i)) as [m|e];
    [|reflexivity].
  cbn [bind]. apply IH.
Qed.

(** X13. [DoANNQuery] never looks at the status of a query: whatever
    status the backend reports for the select statements, the statements
    submitted, the counters and the recalls are the same.  A query that
    failed is scored like any other, on the rows the writer holds. *)
Theorem DoANNQuery_ignores_status (world : Type)
        (ExecuteSql : string -> writer_kind -> world -> bool * world)
        (values_ : world -> list (list string)) (b : bool)
        (st : state world) (p : list Z) (nq : Z) (gt : list Z) :
  DoANNQuery world (with_status b ExecuteSql) values_ st p nq gt
  = DoANNQuery world ExecuteSql values_ st p nq gt.
Proof.
  unfold DoANNQuery. now rewrite DoANNQuery_loop_with_status.
Qed.

(** X14. The ground-truth entry a query is scored against.  With a
    matrix of rows of width [k], the pointer [gt + 100 * i] handed to
    [AddQueryResult] for query [i] starts at entry [(100 * i) mod k] of
    row [(100 * i) / k]; it is the first entry of row [i] when [k] is 100. *)
Theorem DoANNQuery_gt_entry (rows : list (list Z)) (tail : list Z) (k i : Z) :
  0 < k -> 0 <= i ->
  Forall (fun r => Z.of_nat (List.length r) = k) rows ->
  100 * i < k * Z.of_nat (List.length rows) ->
  (exists target,
      payload_ij rows (100 * i / k) ((100 * i) mod k) = Some target /\
      load (DoANNQuery_gt_row (List.concat rows ++ tail) i) 0 = Returned target) /\
  (k = 100 ->
   exists row, nth_error rows (Z.to_nat i) = Some row /\
               load (DoANNQuery_gt_row (List.concat rows ++ tail) i) 0 = load row 0).
Proof.
  intros Hk Hi Hrows Hlen.
  assert (Hentry : forall a b, 0 <= a < Z.of_nat (List.length rows) -> 0 <= b < k ->
            100 * i = a * k + b ->
            exists target,
              payload_ij rows a b = Some target /\
              load (DoANNQuery_gt_row (List.concat rows ++ tail) i) 0
              = Returned target).
  { intros a b Ha Hb Heq.
    destruct (at_ij_packed Z rows tail k (Z.of_nat (List.length rows)) a b
                eq_refl Hrows Ha Hb) as (target & Hp & Hat).
    exists target. split; [exact Hp|].
    unfold DoANNQuery_gt_row, advance. rewrite load_0.
    unfold at_ij in Hat. rewrite <- Heq in Hat.
    apply nth_error_split in Hat as (before & after & -> & <-).
    now rewrite skipn_length_app. }
  split.
  - apply Hentry.
    + split; [apply Z.div_pos; lia|]. apply Z.div_lt_upper_bound; lia.
    + apply Z.mod_pos_bound. lia.
    + pose proof (Z.div_mod (100 * i) k). lia.
  - intros ->. destruct (Hentry i 0) as (target & Hp & Hload); try lia.
    unfold payload_ij in Hp.
    destruct (nth_error rows (Z.to_nat i)) as [row|]; [|discriminate].
    exists row. split; [reflexivity|]. rewrite Hload, load_0.
    destruct row; [discriminate|]. cbn in Hp. now injection Hp as ->.
Qed.

Lemma DoANNQuery_gt_entry_witness :
  exists target,
    payload_ij k60_ground_truth (100 * 1 / 60) ((100 * 1) mod 60) = Some target /\
    load (DoANNQuery_gt_row (List.concat k60_ground_truth ++ []) 1) 0
    = Returned target.
Proof.
  destruct (DoANNQuery_gt_entry k60_ground_truth [] 60 1) as [H _].
  - lia.
  - lia.
  - repeat constructor.
  - cbn. lia.
  - exact H.
Defined.

Lemma DoANNQuery_gt_row_nonempty (gt : list Z) (i : Z) :
  0 <= i -> 100 * i < Z.of_nat (List.length gt) ->
  DoANNQuery_gt_row gt i <> [].
Proof.
  intros Hi Hlen Hnil. unfold DoANNQuery_gt_row, advance in Hnil.
  apply (f_equal (@List.length Z)) in Hnil.
  rewrite length_skipn in Hnil. cbn [List.length] in Hnil. lia.
Qed.

Lemma AddQueryResult_returns (m : Metric) (res gt : list Z) :
  gt <> [] -> exists m', AddQueryResult m res gt = Returned m'.
Proof.
  intros Hne. unfold AddQueryResult. rewrite load_0.
  destruct gt; [congruence|]. cbn [bind]. eexists. reflexivity.
Qed.

(** The query loop from query [i] on is the metric run over what the
    backend answers, query by query, and submits one select statement per
    query vector.  The backend is assumed to answer with rows whose first
    cell is a number. *)
Lemma DoANNQuery_loop_run (world : Type)
      (ExecuteSql : string -> writer_kind -> world -> bool * world)
      (values_ : world -> list (list string)) (gt : list Z)
      (queries : list (list Z)) :
  (forall w, exists ids, id_lst_of (values_ w) = Returned ids) ->
  Forall (fun q => Z.of_nat (List.length q) = 128) queries ->
  forall (done tail : list Z) (i : Z) (st : state world) (m : Metric),
    0 <= i ->
    Z.of_nat (List.length done) = 128 * i ->
    (queries <> [] ->
     100 * (i + Z.of_nat (List.length queries) - 1) < Z.of_nat (List.length gt)) ->
    let calls := query_calls world ExecuteSql values_ i queries gt (bustub st) in
    exists st' m',
      DoANNQuery_loop world ExecuteSql values_
        (done ++ List.concat queries ++ tail) gt i (List.length queries) st m
      = Returned (st', m') /\
      executed st' = executed st ++ map select_statement queries /\
      cerr st' = cerr st /\
      record_all m calls = Returned m' /\
      Forall (fun call => snd call <> []) calls /\
      List.length calls = List.length queries.
Proof.
  intros Hparse. induction 1 as [|q queries Hq Hqueries IH];
    intros done tail i st m Hi Hdone Hgt calls; subst calls.
  - exists st, m. cbn. rewrite !app_nil_r. repeat split; auto.
  - cbn [List.length DoANNQuery_loop List.concat query_calls].
    unfold advance. rewrite <- Hdone, Nat2Z.id, skipn_length_app, <- app_assoc.
    rewrite (Vector2String_literal_n q _ 128 Hq). cbn [bind].
    fold (select_statement q). unfold run_sql.
    destruct (ExecuteSql (select_statement q) StringVectorWriter (bustub st))
      as [status w] eqn:Hexec.
    cbn [snd bustub]. unfold answer_ids at 1.
    destruct (Hparse w) as (ids & Hids). rewrite Hids. cbn [bind].
    assert (Hrow : DoANNQuery_gt_row gt i <> []).
    { apply DoANNQuery_gt_row_nonempty; [exact Hi|].
      specialize (Hgt ltac:(discriminate)). cbn [List.length] in Hgt. lia. }
    destruct (AddQueryResult_returns m ids _ Hrow) as (m1 & Hm1).
    cbn [record_all]. rewrite Hm1. cbn [bind].
    destruct (IH (done ++ q) tail (i + 1)
                (mkState w (cerr st) (executed st ++ [select_statement q])) m1)
      as (st' & m' & Hrun & Hexe & Hcerr & Hrec & Hne & Hlen).
    + lia.
    + rewrite length_app. lia.
    + intros Hq'. specialize (Hgt ltac:(discriminate)).
      cbn [List.length] in Hgt. lia.
    + cbn [bustub] in Hrec, Hne, Hlen.
      exists st', m'. rewrite <- app_assoc in Hrun.
      split; [exact Hrun|]. split.
      { rewrite Hexe. cbn [executed map]. now rewrite <- app_assoc. }
      split; [exact Hcerr|]. split; [exact Hrec|]. split.
      { constructor; [exact Hrow | exact Hne]. }
      cbn [List.length]. now rewrite Hlen.
Qed.

(** X15. [DoANNQuery] over [nq] query vectors of dimension 128, with a
    backend whose rows start with a number and a ground-truth array that
    reaches the pointer of the last query: it returns, having submitted
    one select statement per query vector, in order, each with the
    literal of its vector, and nothing on [std::cerr]; [n_] is [nq], and
    each hit counter is the number of queries whose ground-truth entry is
    among the first 1, 10 or 100 identifiers the backend answered with;
    the recalls are those counters over [nq]. *)
Theorem DoANNQuery_scores_queries (world : Type)
        (ExecuteSql : string -> writer_kind -> world -> bool * world)
        (values_ : world -> list (list string))
        (queries : list (list Z)) (tail gt : list Z) (st : state world) :
  (forall w, exists ids, id_lst_of (values_ w) = Returned ids) ->
  Forall (fun q => Z.of_nat (List.length q) = 128) queries ->
  Z.of_nat (List.length queries) < SizeT.modulus ->
  (queries <> [] ->
   100 * (Z.of_nat (List.length queries) - 1) < Z.of_nat (List.length gt)) ->
  let nq := Z.of_nat (List.length queries) in
  let calls := query_calls world ExecuteSql values_ 0 queries gt (bustub st) in
  exists st' m,
    DoANNQuery world ExecuteSql values_ st (List.concat queries ++ tail) nq gt
    = Returned (st', m, (fdiv (n_1_ m) nq, fdiv (n_10_ m) nq, fdiv (n_100_ m) nq)) /\
    executed st' = executed st ++ map select_statement queries /\
    cerr st' = cerr st /\
    n_ m = nq /\
    n_1_ m = count_top 1 calls /\
    n_10_ m = count_top 10 calls /\
    n_100_ m = count_top 100 calls.
Proof.
  intros Hparse Hqueries Hnq Hgt nq calls.
  destruct (DoANNQuery_loop_run world ExecuteSql values_ gt queries Hparse Hqueries
              [] tail 0 st Metric_default)
    as (st' & m & Hrun & Hexe & Hcerr & Hrec & Hne & Hlen).
  - lia.
  - reflexivity.
  - intros Hq. specialize (Hgt Hq). lia.
  - fold calls in Hrec, Hne, Hlen.
    destruct (record_all_counts calls Metric_default)
      as (m' & Hrec' & Hn & H1 & H10 & H100);
      cbn [Metric_default n_1_ n_10_ n_100_ n_]; try lia; try exact Hne.
    assert (m' = m) as -> by congruence.
    cbn [Metric_default n_1_ n_10_ n_100_ n_] in Hn, H1, H10, H100.
    rewrite Hlen in Hn.
    exists st', m. split.
    + unfold DoANNQuery. subst nq. rewrite Nat2Z.id.
      cbn [app] in Hrun. rewrite Hrun. cbn [bind]. unfold Show.
      rewrite Hn. reflexivity.
    + repeat split; try assumption; lia.
Qed.

Lemma DoANNQuery_scores_queries_witness :
  exists st' m,
    DoANNQuery nat k60_ExecuteSql parity_values_ (mkState 0%nat "" [])
      (repeat 0 128 ++ repeat 1065353216 128) 2 (map Z.of_nat (seq 1 101))
    = Returned (st', m, (fdiv (n_1_ m) 2, fdiv (n_10_ m) 2, fdiv (n_100_ m) 2)) /\
    n_ m = 2 /\ n_1_ m = 1 /\ n_10_ m = 1 /\ n_100_ m = 1.
Proof.
  destruct (DoANNQuery_scores_queries nat k60_ExecuteSql parity_values_
              [repeat 0 128; repeat 1065353216 128] [] (map Z.of_nat (seq 1 101))
              (mkState 0%nat "" []))
    as (st' & m & Hrun & _ & _ & Hn & H1 & H10 & H100).
  - intros w. unfold parity_values_. destruct (Nat.even w); eexists; reflexivity.
  - repeat constructor.
  - reflexivity.
  - intros _. reflexivity.
  - exists st', m. split; [exact Hrun|].
    split; [exact Hn|]. split; [exact H1|]. split; [exact H10 | exact H100].
Defined.

(** ** InsertIndexVectorData as a whole *)

(** X16. [InsertIndexVectorData] on a well-formed base file of dimension
    [d]: when the index statement is rejected it stops on the assertion
    before the file is opened; when [d] is not 128 it stops on the
    dimension assertion; otherwise it returns, having submitted the index
    statement and then one insert statement per record, with one line on
    [std::cerr] per rejected insert. *)
Theorem InsertIndexVectorData_whole (world : Type)
        (ExecuteSql : string -> writer_kind -> world -> bool * world)
        (fs : filesystem) (d n : Z) (records : list (list Z))
        (st : state world) (status : bool) (w : world) :
  well_formed d n records ->
  0 < n ->
  fs "sift1M/sift_base.fvecs"%string = Some (fvecs_file d records) ->
  ExecuteSql create_index NoopWriter (bustub st) = (status, w) ->
  if status then
    if d =? 128 then
      exists st',
        InsertIndexVectorData world ExecuteSql fs st = Returned st' /\
        executed st' = executed st ++ create_index :: insert_statements 0 records /\
        cerr st' = (cerr st ++
                    failure_log 0 (insert_statuses world ExecuteSql 0 records w))%string
    else
      InsertIndexVectorData world ExecuteSql fs st
      = Raised (AssertionFailed "vector dimension should be 128.")
  else
    InsertIndexVectorData world ExecuteSql fs st
    = Raised (AssertionFailed "Failed to create vector index.").
Proof.
  intros Hwf Hpos Hfs Hexec.
  unfold InsertIndexVectorData, run_sql. rewrite Hexec.
  destruct status; [|reflexivity]. cbn [assert bind].
  destruct (FvecsRead_fvecs_file fs _ d n records Hwf Hpos Hfs)
    as (junk & _ & Hread).
  rewrite Hread. cbn [bind].
  destruct (Z.eqb_spec d 128) as [->|Hd]; [|reflexivity]. cbn [assert bind].
  destruct Hwf as (_ & Hn & Hrecords). rewrite <- Hn, Nat2Z.id.
  destruct (InsertIndexVectorData_loop_run world ExecuteSql 128 records)
    with (done := @nil Z) (tail := junk) (i := 0)
         (st := mkState w (cerr st) (executed st ++ [create_index]))
    as (st' & Hrun & Hexe & Hcerr).
  - pow2. lia.
  - eapply Forall_impl; [|exact Hrecords]. cbv beta. intros r [Hr _]. exact Hr.
  - lia.
  - reflexivity.
  - exists st'. split; [exact Hrun|]. split.
    + rewrite Hexe. cbn [executed]. now rewrite <- app_assoc.
    + exact Hcerr.
Qed.

Lemma InsertIndexVectorData_whole_witness :
  InsertIndexVectorData nat (reject_nth 0)
    (fun _ => Some (fvecs_file 2 [[7; 8]])) (mkState 0%nat "" [])
  = Raised (AssertionFailed "Failed to create vector index.") /\
  InsertIndexVectorData nat (reject_nth 5)
    (fun _ => Some (fvecs_file 2 [[7; 8]])) (mkState 0%nat "" [])
  = Raised (AssertionFailed "vector dimension should be 128.") /\
  exists st',
    InsertIndexVectorData nat (reject_nth 2)
      (fun _ => Some (fvecs_file 128 [repeat 0 128; repeat 1065353216 128]))
      (mkState 0%nat "" [])
    = Returned st' /\
    executed st'
    = [] ++ create_index
         :: insert_statements 0 [repeat 0 128; repeat 1065353216 128] /\
    cerr st' = ("" ++ "Insert data failed: index = 1" ++ String "010" "")%string.
Proof.
  split; [|split].
  3:{ apply (InsertIndexVectorData_whole nat (reject_nth 2)
               (fun _ => Some (fvecs_file 128 [repeat 0 128; repeat 1065353216 128]))
               128 2 [repeat 0 128; repeat 1065353216 128]
               (mkState 0%nat "" []) true 1%nat).
      - apply well_formedb_ok. reflexivity.
      - lia.
      - reflexivity.
      - reflexivity. }
  - apply (InsertIndexVectorData_whole nat (reject_nth 0)
             (fun _ => Some (fvecs_file 2 [[7; 8]])) 2 1 [[7; 8]]
             (mkState 0%nat "" []) false 1%nat).
    + apply well_formedb_ok. reflexivity.
    + lia.
    + reflexivity.
    + reflexivity.
  - apply (InsertIndexVectorData_whole nat (reject_nth 5)
             (fun _ => Some (fvecs_file 2 [[7; 8]])) 2 1 [[7; 8]]
             (mkState 0%nat "" []) true 1%nat).
    + apply well_formedb_ok. reflexivity.
    + lia.
    + reflexivity.
    + reflexivity.
Defined.

(** ** main *)

Lemma length_concat_rows (A : Type) (d : Z) (rows : list (list A)) :
  Forall (fun r => Z.of_nat (List.length r) = d) rows ->
  Z.of_nat (List.length (List.concat rows)) = Z.of_nat (List.length rows) * d.
Proof.
  induction 1 as [|r rows Hr _ IH]; [reflexivity|].
  cbn [List.concat List.length]. rewrite length_app. nia.
Qed.

Lemma well_formed_rows (d n : Z) (records : list (list Z)) :
  well_formed d n records ->
  Forall (fun r => Z.of_nat (List.length r) = d) records.
Proof.
  intros (_ & _ & H). eapply Forall_impl; [|exact H]. cbv beta.
  intros r [Hr _]. exact Hr.
Qed.

(** X17. [main] on well-formed files, 128-dimensional base and query
    vectors, a ground truth with as many rows as there are queries, of
    any width [k] that keeps the pointer of the last query inside the
    array, and a backend that accepts the two set-up statements and
    answers with rows that start with a number: the run returns, the
    statements submitted are the table statement, the index statement,
    one insert per base vector and one select per query vector, in this
    order, [n_] is the number of queries and the recalls are the ordered
    counters over it. *)
Theorem main_runs (world : Type)
        (ExecuteSql : string -> writer_kind -> world -> bool * world)
        (values_ : world -> list (list string)) (fs : filesystem)
        (w0 w1 w2 : world) (nb nq k : Z)
        (base queries rows : list (list Z)) :
  (forall w, exists ids, id_lst_of (values_ w) = Returned ids) ->
  ExecuteSql create_table_sql NoopWriter w0 = (true, w1) ->
  ExecuteSql create_index NoopWriter w1 = (true, w2) ->
  well_formed 128 nb base -> 0 < nb ->
  fs "sift1M/sift_base.fvecs"%string = Some (fvecs_file 128 base) ->
  well_formed 128 nq queries -> 0 < nq ->
  fs "sift1M/sift_query.fvecs"%string = Some (fvecs_file 128 queries) ->
  well_formed k nq rows ->
  fs "sift1M/sift_groundtruth.ivecs"%string = Some (fvecs_file k rows) ->
  100 * (nq - 1) < k * nq ->
  nq < SizeT.modulus ->
  exists st m,
    main world ExecuteSql values_ fs w0
    = Returned (st, m, (fdiv (n_1_ m) nq, fdiv (n_10_ m) nq, fdiv (n_100_ m) nq)) /\
    executed st
    = create_table_sql :: create_index
        :: insert_statements 0 base ++ map select_statement queries /\
    n_ m = nq /\
    n_1_ m <= n_10_ m /\ n_10_ m <= n_100_ m /\ n_100_ m <= nq.
Proof.
  intros Hparse Hct Hci Hwfb Hnb Hfsb Hwfq Hnq Hfsq Hwfg Hfsg Hbound Hmax.
  unfold main, run_sql. cbn [bustub cerr executed app]. rewrite Hct.
  cbn [assert bind].
  destruct (InsertIndexVectorData_run world ExecuteSql fs nb base
              (mkState w1 "" [create_table_sql]) w2 Hwfb Hnb Hfsb Hci)
    as (st1 & Hins & Hexe1).
  rewrite Hins. cbn [bind].
  destruct (FvecsRead_fvecs_file fs _ 128 nq queries Hwfq Hnq Hfsq)
    as (junkq & _ & Hq).
  rewrite Hq. cbn [bind Z.eqb Pos.eqb assert].
  unfold IvecsRead.
  destruct (FvecsRead_fvecs_file fs _ k nq rows Hwfg Hnq Hfsg)
    as (junkg & Hjunkg & Hg).
  rewrite Hg. cbn [bind]. rewrite Z.eqb_refl. cbn [assert bind].
  pose proof (well_formed_rows _ _ _ Hwfq) as Hqueries.
  pose proof (well_formed_rows _ _ _ Hwfg) as Hrows.
  pose proof (length_concat_rows Z k rows Hrows) as Hlenrows.
  destruct Hwfq as (_ & Hlenq & _). destruct Hwfg as (Hk & Hleng & _).
  rewrite Hleng in Hlenrows.
  pose proof (copy_ints_from (Z.to_nat (k * nq)) []
                (map Int32.of_bits (List.concat rows ++ junkg))) as Hcopy.
  cbn [app List.length Z.of_nat] in Hcopy. rewrite Hcopy. clear Hcopy.
  replace (Z.to_nat (k * nq) <=?
           List.length (map Int32.of_bits (List.concat rows ++ junkg)))%nat
    with true
    by (symmetry; apply Nat.leb_le; rewrite length_map, length_app; lia).
  cbn [bind].
  set (gt := firstn (Z.to_nat (k * nq))
               (map Int32.of_bits (List.concat rows ++ junkg))).
  assert (Hgt : Z.of_nat (List.length gt) = k * nq).
  { unfold gt. rewrite length_firstn, length_map, length_app. lia. }
  destruct (DoANNQuery_loop_run world ExecuteSql values_ gt queries Hparse Hqueries
              [] junkq 0 st1 Metric_default)
    as (st & m & Hrun & Hexe & _ & Hrec & Hne & Hlen).
  - lia.
  - reflexivity.
  - intros _. lia.
  - set (calls := query_calls world ExecuteSql values_ 0 queries gt (bustub st1)) in *.
    assert (Hinv : exists m', record_all Metric_default calls = Returned m' /\
                     0 <= n_1_ m' /\ counters_ordered m' /\
                     n_ m' = 0 + Z.of_nat (List.length calls)).
    { apply record_all_invariant; try exact Hne; try reflexivity;
        try lia; try (cbn; lia); unfold counters_ordered; cbn; lia. }
    destruct Hinv as (m' & Hrec' & _ & (Ha & Hb & Hc) & Hn).
    assert (m' = m) as -> by congruence.
    rewrite Hlen, Hlenq in Hn. cbn [Z.add] in Hn.
    exists st, m. split; [|split; [|split; [exact Hn | lia]]].
    + unfold DoANNQuery. rewrite <- Hlenq, Nat2Z.id. cbn [app] in Hrun.
      rewrite Hrun. cbn [bind]. unfold Show. rewrite Hn, Hlenq. reflexivity.
    + rewrite Hexe, Hexe1. reflexivity.
Qed.

Lemma main_runs_witness :
  exists st m,
    main nat k60_ExecuteSql parity_values_ k60_fs 0%nat
    = Returned (st, m, (fdiv (n_1_ m) 2, fdiv (n_10_ m) 2, fdiv (n_100_ m) 2)) /\
    n_ m = 2.
Proof.
  destruct (main_runs nat k60_ExecuteSql parity_values_ k60_fs 0%nat 0%nat 0%nat
              1 2 60 [repeat 0 128] [repeat 0 128; repeat 1065353216 128]
              k60_ground_truth)
    as (st & m & Hrun & _ & Hn & _).
  - intros w. unfold parity_values_. destruct (Nat.even w); eexists; reflexivity.
  - reflexivity.
  - reflexivity.
  - apply well_formedb_ok. reflexivity.
  - lia.
  - reflexivity.
  - apply well_formedb_ok. reflexivity.
  - lia.
  - reflexivity.
  - apply well_formedb_ok. reflexivity.
  - reflexivity.
  - lia.
  - reflexivity.
  - exists st, m. split; [exact Hrun | exact Hn].
Defined.

(** X18. [main] gets to the end only past all of its checks: the table
    and the index statements were accepted, the base file and the query
    file were read with dimension 128, and the ground-truth file was read
    with as many rows as there are queries.  The row width [k] of the
    ground truth is not checked against anything. *)
Theorem main_returns_only_if (world : Type)
        (ExecuteSql : string -> writer_kind -> world -> bool * world)
        (values_ : world -> list (list string)) (fs : filesystem) (w0 : world)
        (result : state world * Metric * (float_quot * float_quot * float_quot)) :
  main world ExecuteSql values_ fs w0 = Returned result ->
  exists w1 w2 nb xb nq xq k gt_int,
    ExecuteSql create_table_sql NoopWriter w0 = (true, w1) /\
    ExecuteSql create_index NoopWriter w1 = (true, w2) /\
    FvecsRead fs "sift1M/sift_base.fvecs" = Returned (128, nb, xb) /\
    FvecsRead fs "sift1M/sift_query.fvecs" = Returned (128, nq, xq) /\
    IvecsRead fs "sift1M/sift_groundtruth.ivecs" = Returned (k, nq, gt_int).
Proof.
  intros H. unfold main, run_sql in H. cbn [bustub cerr executed] in H.
  destruct (ExecuteSql create_table_sql NoopWriter w0) as [[] w1] eqn:Hct;
    [|discriminate].
  cbn [assert bind] in H.
  destruct (InsertIndexVectorData world ExecuteSql fs _) as [st1|e] eqn:Hins;
    [|discriminate].
  cbn [bind] in H.
  unfold InsertIndexVectorData, run_sql in Hins. cbn [bustub] in Hins.
  destruct (ExecuteSql create_index NoopWriter w1) as [[] w2] eqn:Hci;
    [|discriminate].
  cbn [assert bind] in Hins.
  destruct (FvecsRead fs "sift1M/sift_base.fvecs") as [[[d nb] xb]|e] eqn:Hb;
    [|discriminate].
  cbn [bind] in Hins.
  destruct (Z.eqb_spec d 128) as [->|]; [|discriminate].
  destruct (FvecsRead fs "sift1M/sift_query.fvecs") as [[[d2 nq] xq]|e] eqn:Hq;
    [|discriminate].
  cbn [bind] in H.
  destruct (Z.eqb_spec d2 128) as [->|]; [|discriminate]. cbn [assert bind] in H.
  destruct (IvecsRead fs "sift1M/sift_groundtruth.ivecs")
    as [[[k nq2] gt_int]|e] eqn:Hg; [|discriminate].
  cbn [bind] in H.
  destruct (Z.eqb_spec nq2 nq) as [->|]; [|discriminate].
  exists w1, w2, nb, xb, nq, xq, k, gt_int. auto.
Qed.

Lemma main_returns_only_if_witness :
  exists w1 w2 nb xb nq xq k gt_int,
    k60_ExecuteSql create_table_sql NoopWriter 0%nat = (true, w1) /\
    k60_ExecuteSql create_index NoopWriter w1 = (true, w2) /\
    FvecsRead k60_fs "sift1M/sift_base.fvecs" = Returned (128, nb, xb) /\
    FvecsRead k60_fs "sift1M/sift_query.fvecs" = Returned (128, nq, xq) /\
    IvecsRead k60_fs "sift1M/sift_groundtruth.ivecs" = Returned (k, nq, gt_int).
Proof.
  eapply (main_returns_only_if nat k60_ExecuteSql k60_values_ k60_fs 0%nat).
  vm_compute. reflexivity.
Defined.

(** ** When the query loop returns *)

(** One round of the query loop. *)
Lemma DoANNQuery_loop_step (world : Type)
      (ExecuteSql : string -> writer_kind -> world -> bool * world)
      (values_ : world -> list (list string)) (p gt : list Z) (i : Z)
      (k : nat) (st : state world) (m : Metric) (q : list Z) (w : world)
      (status : bool) :
  Vector2String (advance p (128 * i)) 128 = Returned (literal q) ->
  ExecuteSql (select_statement q) StringVectorWriter (bustub st) = (status, w) ->
  DoANNQuery_loop world ExecuteSql values_ p gt i (S k) st m
  = (id_lst <- id_lst_of (values_ w) ;;
     metric <- AddQueryResult m id_lst (DoANNQuery_gt_row gt i) ;;
     DoANNQuery_loop world ExecuteSql values_ p gt (i + 1) k
       (mkState w (cerr st) (executed st ++ [select_statement q])) metric).
Proof.
  intros Hvec Hexec. cbn [DoANNQuery_loop]. rewrite Hvec. cbn [bind].
  fold (select_statement q). unfold run_sql. rewrite Hexec. reflexivity.
Qed.

(** A query loop that returns has parsed every answer. *)
Lemma DoANNQuery_loop_returned (world : Type)
      (ExecuteSql : string -> writer_kind -> world -> bool * world)
      (values_ : world -> list (list string)) (gt : list Z)
      (queries : list (list Z)) :
  Forall (fun q => Z.of_nat (List.length q) = 128) queries ->
  forall (done tail : list Z) (i : Z) (st : state world) (m : Metric)
         (result : state world * Metric),
    0 <= i ->
    Z.of_nat (List.length done) = 128 * i ->
    DoANNQuery_loop world ExecuteSql values_
      (done ++ List.concat queries ++ tail) gt i (List.length queries) st m
    = Returned result ->
    Forall (fun w => exists ids, id_lst_of (values_ w) = Returned ids)
           (query_worlds world ExecuteSql queries (bustub st)).
Proof.
  induction 1 as [|q queries Hq Hqueries IH];
    intros done tail i st m result Hi Hdone Hrun.
  - constructor.
  - destruct (ExecuteSql (select_statement q) StringVectorWriter (bustub st))
      as [status w] eqn:Hexec.
    assert (Hvec : Vector2String
                     (advance (done ++ List.concat (q :: queries) ++ tail) (128 * i))
                     128 = Returned (literal q)).
    { unfold advance. rewrite <- Hdone, Nat2Z.id, skipn_length_app.
      cbn [List.concat]. rewrite <- app_assoc.
      apply Vector2String_literal_n. exact Hq. }
    change (List.length (q :: queries)) with (S (List.length queries)) in Hrun.
    rewrite (DoANNQuery_loop_step world ExecuteSql values_ _ gt i _ st m q w status
               Hvec Hexec) in Hrun.
    destruct (id_lst_of (values_ w)) as [ids|e] eqn:Hids;
      [|exfalso; revert Hrun; apply not_eq_sym; discriminate].
    change (bind (Returned ids) ?k) with (k ids) in Hrun. cbv beta in Hrun.
    destruct (AddQueryResult m ids (DoANNQuery_gt_row gt i)) as [m1|e] eqn:Hm1;
      [|exfalso; revert Hrun; apply not_eq_sym; discriminate].
    assert (Hrun' : DoANNQuery_loop world ExecuteSql values_
                      ((done ++ q) ++ List.concat queries ++ tail) gt (i + 1)
                      (List.length queries)
                      (mkState w (cerr st) (executed st ++ [select_statement q])) m1
                    = Returned result).
    { rewrite <- Hrun. cbn [List.concat]. rewrite <- !app_assoc. reflexivity. }
    pose proof (IH (done ++ q) tail (i + 1)
                  (mkState w (cerr st) (executed st ++ [select_statement q]))
                  m1 result ltac:(lia) ltac:(rewrite length_app; lia) Hrun') as Hall.
    assert (Hw : snd (ExecuteSql (select_statement q) StringVectorWriter (bustub st))
                 = w) by now rewrite Hexec.
    cbn [query_worlds]. rewrite Hw.
    constructor; [now exists ids | exact Hall].
Qed.

Lemma id_lst_of_returned_cells (res : list (list string)) :
  forall ids,
    id_lst_of res = Returned ids ->
    Forall (fun lines =>
              forall cell more, lines = cell :: more ->
                exists id, stoi cell = Returned id) res.
Proof.
  induction res as [|lines res IH]; intros ids H; [constructor|].
  cbn [id_lst_of] in H. rewrite load_0 in H.
  destruct lines as [|cell more]; [discriminate|]. cbn [bind] in H.
  destruct (stoi cell) as [id|e] eqn:Hcell; [|discriminate]. cbn [bind] in H.
  destruct (id_lst_of res) as [ids'|e] eqn:Hres; [|discriminate].
  constructor; [|now apply (IH ids')].
  intros cell' more' Heq. injection Heq as <- <-. now exists id.
Qed.

(** X19. [DoANNQuery] returns only if, after every select statement,
    the first cell of every row the writer holds is a text [std::stoi]
    parses: an identifier that [std::stoi] rejects makes it throw, which
    ends the run instead of the query being scored as a miss. *)
Theorem DoANNQuery_returns_only_if (world : Type)
        (ExecuteSql : string -> writer_kind -> world -> bool * world)
        (values_ : world -> list (list string))
        (queries : list (list Z)) (tail gt : list Z) (st : state world)
        (result : state world * Metric * (float_quot * float_quot * float_quot)) :
  Forall (fun q => Z.of_nat (List.length q) = 128) queries ->
  DoANNQuery world ExecuteSql values_ st (List.concat queries ++ tail)
    (Z.of_nat (List.length queries)) gt = Returned result ->
  Forall (fun w =>
            Forall (fun lines =>
                      forall cell more, lines = cell :: more ->
                        exists id, stoi cell = Returned id) (values_ w))
         (query_worlds world ExecuteSql queries (bustub st)).
Proof.
  intros Hqueries Hrun. unfold DoANNQuery in Hrun. rewrite Nat2Z.id in Hrun.
  destruct (DoANNQuery_loop world ExecuteSql values_ (List.concat queries ++ tail)
              gt 0 (List.length queries) st Metric_default)
    as [loop_result|e] eqn:Hloop; [|discriminate].
  pose proof (DoANNQuery_loop_returned world ExecuteSql values_ gt queries Hqueries
                [] tail 0 st Metric_default loop_result
                ltac:(lia) eq_refl Hloop) as Hall.
  eapply Forall_impl; [|exact Hall]. cbv beta.
  intros w (ids & Hids). now apply (id_lst_of_returned_cells _ ids).
Qed.

Lemma DoANNQuery_returns_only_if_witness :
  Forall (fun w =>
            Forall (fun lines =>
                      forall cell more, lines = cell :: more ->
                        exists id, stoi cell = Returned id) (parity_values_ w))
         (query_worlds nat k60_ExecuteSql [repeat 0 128; repeat 1065353216 128] 0%nat).
Proof.
  eapply (DoANNQuery_returns_only_if nat k60_ExecuteSql parity_values_
            [repeat 0 128; repeat 1065353216 128] [] (map Z.of_nat (seq 1 101))
            (mkState 0%nat "" [])).
  - repeat constructor.
  - vm_compute. reflexivity.
Defined.
